(** * gj2ascii: the render / stack pipeline of [gj2ascii/_core.py]

    A shallow embedding of [_geometry_extractor], [stack] and [render].
    Python exceptions are an explicit error type, generators and iterators
    live in an explicit heap (so that consuming one is visible), and the two
    external collaborators of [render] (shapely's [asShape(g).bounds] and
    rasterio's [rasterize]) are parameters of the development. *)

From Stdlib Require Import String Ascii ZArith QArith Qround List Lia.
From stdpp Require Import base option list gmap strings.

Local Open Scope string_scope.
Local Open Scope list_scope.

(** ** Exceptions and results *)

(** The exception classes that the modelled code can raise.  [LibraryError]
    stands for any exception raised inside an external library call. *)
Inductive exn : Type :=
| ValueError
| TypeError
| KeyError
| ZeroDivisionError
| LibraryError.

Inductive result (A : Type) : Type :=
| Ok (a : A)
| Raise (e : exn).
Arguments Ok {A} a.
Arguments Raise {A} e.

Definition rbind {A B} (r : result A) (k : A -> result B) : result B :=
  match r with
  | Ok a => k a
  | Raise e => Raise e
  end.

(** ** Python values reaching the geometry normaliser *)

(** GeoJSON-like data: mappings are Python [dict]s keyed by strings.  [VGeo m]
    is an object exposing [__geo_interface__], with [mapping(obj) = m].
    [VGen] and [VIter] are handles of one-shot iterators kept in the heap:
    [VGen] a generator object ([types.GeneratorType]), [VIter] any other
    iterator (for instance the result of [iter(some_list)]). *)
#[warning="-register-all"]
Inductive value : Type :=
| VNone
| VNum (q : Q)
| VStr (s : string)
| VList (items : list value)
| VDict (d : gmap string value)
| VGeo (m : value)
| VGen (g : nat)
| VIter (it : nat).

#[global] Instance result_ret : MRet result := @Ok.
#[global] Instance result_bind : MBind result := fun A B k r => rbind r k.
#[global] Instance result_fmap : FMap result := fun A B f r => rbind r (fun a => Ok (f a)).

(** ** Strings *)

Definition LF : ascii := "010"%char.
Definition CR : ascii := "013"%char.
Definition SPACE : ascii := " "%char.

(** [os.linesep] on a POSIX platform; it is also the [newline] that
    [np.savetxt] writes. *)
Definition linesep : string := String LF "".

(** [str(c)] for a single character [c]. *)
Definition char_str (c : ascii) : string := String c "".

(** [sep.join(parts)] *)
Fixpoint join (sep : string) (parts : list string) : string :=
  match parts with
  | [] => ""
  | [p] => p
  | p :: rest => p +:+ sep +:+ join sep rest
  end.

(** The line boundaries of [str.splitlines] among the code points below 256:
    LF, VT, FF, CR, FS, GS, RS and NEL (the pair CR LF counts once). *)
Definition is_linebreak (c : ascii) : bool :=
  let n := nat_of_ascii c in
  ((10 <=? n) && (n <=? 13) || (28 <=? n) && (n <=? 30) || (n =? 133))%nat.

(** [s.splitlines()]: the lines of [s] without their line boundaries; a final
    boundary does not open an empty last line. *)
Fixpoint splitlines (s : string) : list string :=
  match s with
  | EmptyString => []
  | String c rest =>
      if is_linebreak c then
        match rest with
        | String c' rest' =>
            if Ascii.eqb c CR && Ascii.eqb c' LF
            then "" :: splitlines rest'
            else "" :: splitlines rest
        | EmptyString => "" :: splitlines rest
        end
      else
        match splitlines rest with
        | [] => [char_str c]
        | line :: lines => String c line :: lines
        end
  end.

(** [r[::2]] on a sequence. *)
Fixpoint every_other {A} (r : list A) : list A :=
  match r with
  | [] => []
  | x :: rest => x :: match rest with
                      | [] => []
                      | _ :: rest' => every_other rest'
                      end
  end.

(** [zip] applied to the unpacked [rows]: the tuples of the i-th elements, as
    long as every row has one; no tuple at all when there is no row. *)
Fixpoint zip_star {A} (rows : list (list A)) : list (list A) :=
  match rows with
  | [] => []
  | [r] => map (fun x => [x]) r
  | r :: rows' => zip_with cons r (zip_star rows')
  end.

(** ** [stack] *)

(** Lines 211-215: the pixel put in the output for one column. *)
Definition composite_pixel (fill : string) (pixel_stack : list ascii) : string :=
  let opaque_pixels := filter (fun _p => _p <> SPACE) pixel_stack in
  match last opaque_pixels with
  | None => fill
  | Some p => char_str p
  end.

(** Lines 206-216: the body of the loop over aligned rows. *)
Definition stack_row (fill : string) (row_stack : list string) : result string :=
  if negb (length (remove_dups (map String.length row_stack)) =? 1)%nat
  then Raise ValueError
  else
    let o_row :=
      map (composite_pixel fill)
          (zip_star (map (fun r => every_other (list_ascii_of_string r)) row_stack)) in
    Ok (join " " o_row).

(** The loop of line 204, stopping at the first row that raises. *)
Fixpoint stack_rows (fill : string) (row_stacks : list (list string))
  : result (list string) :=
  match row_stacks with
  | [] => Ok []
  | row_stack :: rest =>
      o_row ← stack_row fill row_stack;
      output_rows ← stack_rows fill rest;
      Ok (o_row :: output_rows)
  end.

(** Lines 199-218. *)
Definition stack (rendered_layers : list string) (fill : string) : result string :=
  if negb (String.length fill =? 1)%nat then Raise ValueError
  else
    output_rows ← stack_rows fill (zip_star (map splitlines rendered_layers));
    Ok (join linesep output_rows +:+ linesep).

(** A line without any line boundary inside. *)
Definition no_linebreak (line : string) : Prop :=
  Forall (fun c => is_linebreak c = false) (list_ascii_of_string line).


(** The length of every line of a layer. *)
Definition layer_shape (layer : string) : list nat :=
  map String.length (splitlines layer).

(** ** One-shot iterators *)

(** The heap of iterator objects.  A generator (or any plain iterator) is the
    list of items it has yet to produce.  The two iterators returned by
    [itertools.tee] are cursors into a shared buffer that is filled from the
    source iterator on demand. *)
Inductive iter_cell : Type :=
| Items (rest : list value)
| TeeCursor (buf : nat) (pos : nat).

Record tee_cell : Type := TeeCell {
  tee_source : nat;
  tee_seen : list value
}.

Record heap : Type := Heap {
  iters : list iter_cell;
  tees : list tee_cell
}.

(** [next(it)]: [None] is [StopIteration]. *)
Definition next_item (it : nat) (h : heap) : option value * heap :=
  match iters h !! it with
  | Some (Items (x :: rest)) =>
      (Some x, Heap (<[it := Items rest]> (iters h)) (tees h))
  | Some (TeeCursor b pos) =>
      match tees h !! b with
      | Some (TeeCell src seen) =>
          match seen !! pos with
          | Some x =>
              (Some x, Heap (<[it := TeeCursor b (S pos)]> (iters h)) (tees h))
          | None =>
              match iters h !! src with
              | Some (Items (x :: rest)) =>
                  (Some x,
                   Heap (<[it := TeeCursor b (S pos)]> (<[src := Items rest]> (iters h)))
                        (<[b := TeeCell src (seen ++ [x])]> (tees h)))
              | _ => (None, h)
              end
          end
      | None => (None, h)
      end
  | _ => (None, h)
  end.

(** The heap after [k] calls of [next(it)]. *)
Fixpoint advance (it : nat) (k : nat) (h : heap) : heap :=
  match k with
  | O => h
  | S k' => advance it k' (snd (next_item it h))
  end.

(** The items that [it] produces when it is iterated to exhaustion. *)
Definition pending_items (it : nat) (h : heap) : list value :=
  match iters h !! it with
  | Some (Items rest) => rest
  | Some (TeeCursor b pos) =>
      match tees h !! b with
      | Some (TeeCell src seen) =>
          drop pos seen ++
          match iters h !! src with
          | Some (Items rest) => rest
          | _ => []
          end
      | None => []
      end
  | None => []
  end.

(** [itertools.tee(g)]: two new iterators over one new, empty buffer. *)
Definition tee (g : nat) (h : heap) : value * value * heap :=
  let b := length (tees h) in
  let c := length (iters h) in
  (VIter c, VIter (S c),
   Heap (iters h ++ [TeeCursor b 0; TeeCursor b 0]) (tees h ++ [TeeCell g []])).

(** What the source of a buffer still holds. *)
Definition source_rest (src : nat) (h : heap) : list value :=
  match iters h !! src with
  | Some (Items rest) => rest
  | _ => []
  end.


(** Computations that read and update the heap and may raise. *)
Definition M (A : Type) : Type := heap -> result A * heap.

#[global] Instance M_ret : MRet M := fun A a h => (Ok a, h).
#[global] Instance M_bind : MBind M := fun A B k m h =>
  match m h with
  | (Ok a, h') => k a h'
  | (Raise e, h') => (Raise e, h')
  end.

Definition raise {A} (e : exn) : M A := fun h => (Raise e, h).
Definition lift {A} (r : result A) : M A := fun h => (r, h).

(** ** [_geometry_extractor] *)

(** What [for obj in ftrz] iterates over, after lines 140-141 have wrapped a
    mapping or an object with [__geo_interface__] in a one-element list.
    Iterating a string gives its characters; [None] and numbers are not
    iterable. *)
Definition source_items (ftrz : value) (h : heap) : result (list value) :=
  match ftrz with
  | VDict _ | VGeo _ => Ok [ftrz]
  | VList items => Ok items
  | VGen it | VIter it => Ok (pending_items it h)
  | VStr s => Ok (map (fun c => VStr (char_str c)) (list_ascii_of_string s))
  | VNone | VNum _ => Raise TypeError
  end.

(** The heap after [k] elements have been taken from [ftrz]. *)
Definition consume (ftrz : value) (k : nat) (h : heap) : heap :=
  match ftrz with
  | VGen it | VIter it => advance it k h
  | _ => h
  end.

(** [ty == 'Feature'] *)
Definition is_feature_tag (ty : value) : bool :=
  match ty with
  | VStr t => String.eqb t "Feature"
  | _ => false
  end.

(** Lines 143-150, the body of the loop for one element.  [obj['type']] is a
    [KeyError] on a mapping without that key and a [TypeError] on anything
    that is not a mapping. *)
Definition extract_geometry (obj : value) : result value :=
  let obj := match obj with VGeo m => m | _ => obj end in
  match obj with
  | VDict d =>
      match d !! "type" with
      | None => Raise KeyError
      | Some ty =>
          if is_feature_tag ty then
            match d !! "geometry" with
            | Some g => Ok g
            | None => Raise KeyError
            end
          else if bool_decide (is_Some (d !! "coordinates")) then Ok obj
          else Raise TypeError
      end
  | _ => Raise TypeError
  end.

(** A loop over [items] that stops at the first element whose body raises;
    the second component counts the elements taken from the source. *)
Fixpoint run_loop {A} (body : value -> result A) (items : list value)
  : result (list A) * nat :=
  match items with
  | [] => (Ok [], O)
  | obj :: rest =>
      match body obj with
      | Raise e => (Raise e, 1%nat)
      | Ok a =>
          let '(r, k) := run_loop body rest in
          (cons a <$> r, S k)
      end
  end.

(** ** Numbers

    Coordinates are Python floats; they are modelled by exact rationals.
    Division raises [ZeroDivisionError] exactly when the divisor is zero, as
    float division does. *)

Definition py_div (a b : Q) : result Q :=
  if Qeq_bool b 0 then Raise ZeroDivisionError else Ok (a / b)%Q.

(** [int(q)]: truncation towards zero. *)
Definition py_int (q : Q) : Z := Z.quot (Qnum q) (Zpos (Qden q)).

(** [min(l)] and [max(l)]: the first least (greatest) element, a
    [ValueError] on an empty sequence. *)
Definition py_min (l : list Q) : result Q :=
  match l with
  | [] => Raise ValueError
  | x :: xs => Ok (fold_left (fun m y => if Qlt_le_dec y m then y else m) xs x)
  end.

Definition py_max (l : list Q) : result Q :=
  match l with
  | [] => Raise ValueError
  | x :: xs => Ok (fold_left (fun m y => if Qlt_le_dec m y then y else m) xs x)
  end.

(** [l[start::step]] *)
Definition slice_step {A} (start step : nat) (l : list A) : list A :=
  omap id
    (imap (fun i x =>
             if decide (start <= i /\ ((i - start) `mod` step = 0))%nat
             then Some x else None) l).

(** ** Grid to text *)

(** [astype(np.str_)] on a cell of the [uint8] array that [rasterize] fills
    with [fill=0] and burns with [default_value=1]. *)
Definition astype_str (cell : bool) : string := if cell then "1" else "0".

(** [s.replace(old, new)] for a one-character [old]; [np.char.replace]
    applies it to every element of the array. *)
Fixpoint char_replace (old : ascii) (new : string) (s : string) : string :=
  match s with
  | EmptyString => ""
  | String c rest =>
      (if Ascii.eqb c old then new else char_str c) +:+ char_replace old new rest
  end.

(** Lines 338-342. *)
Definition to_symbols (fill value : string) (output_array : list (list bool))
  : list (list string) :=
  let output_array := map (map astype_str) output_array in
  let output_array :=
    if negb (String.eqb fill "0")
    then map (map (char_replace "0" fill)) output_array
    else output_array in
  let output_array :=
    if negb (String.eqb fill "1")
    then map (map (char_replace "1" value)) output_array
    else output_array in
  output_array.

(** [np.savetxt(f, a, fmt='%s')]: the elements of a row separated by one
    space, every row followed by a newline. *)
Definition savetxt (a : list (list string)) : string :=
  fold_right (fun row out => join " " row +:+ String LF "" +:+ out) "" a.

Definition in_chars (chars : string) (c : ascii) : bool :=
  existsb (Ascii.eqb c) (list_ascii_of_string chars).

Fixpoint lstrip (chars : string) (s : string) : string :=
  match s with
  | EmptyString => ""
  | String c rest => if in_chars chars c then lstrip chars rest else s
  end.

Definition string_rev (s : string) : string :=
  string_of_list_ascii (rev (list_ascii_of_string s)).

(** [s.strip(chars)] *)
Definition strip (chars : string) (s : string) : string :=
  string_rev (lstrip chars (string_rev (lstrip chars s))).

(** Lines 337-349. *)
Definition array_to_text (fill value : string) (output_array : list (list bool))
  : string :=
  strip linesep (savetxt (to_symbols fill value output_array)) +:+ linesep.

(** A printable ASCII character, the kind of symbol that the fill and value
    characters are meant to be. *)
Definition printable (c : ascii) : bool :=
  let n := nat_of_ascii c in ((32 <=? n) && (n <? 127))%nat.

(** The character that lines 338-342 leave in a cell, for one-character
    symbols [fill] and [value]. *)
Definition shown_char (fill value : ascii) (cell : bool) : ascii :=
  if Ascii.eqb fill "1" then "1"%char else if cell then value else fill.

(** ** [render] *)

(** The coefficients handed to [affine.Affine.from_gdal], in GDAL order. *)
Record geotransform : Type := FromGdal {
  gt_c : Q; gt_a : Q; gt_b : Q;
  gt_f : Q; gt_d : Q; gt_e : Q
}.

(** The arguments of one call of [rasterize] (lines 327-335). *)
Record rasterize_call : Type := RasterizeCall {
  rc_shapes : list value;
  rc_out_shape : Z * Z;
  rc_transform : geotransform;
  rc_all_touched : bool
}.

Definition bbox_t : Type := Q * Q * Q * Q.

Section Render.

(** [asShape(g).bounds] of shapely: a 4-tuple, or the empty tuple for an
    empty geometry. *)
Variable shape_bounds : value -> result (list Q).

(** [rasterio.features.rasterize] with [fill=0], [default_value=1] and
    [dtype=uint8]: a grid of 0/1 cells, [false] for 0 and [true] for 1. *)
Variable rasterize : rasterize_call -> result (list (list bool)).

(** Everything [_geometry_extractor(ftrz)] yields, each geometry passed
    through [body] as soon as it is yielded. *)
Definition for_geometries {A} (body : value -> result A) (ftrz : value)
  : M (list A) := fun h =>
  match source_items ftrz h with
  | Raise e => (Raise e, h)
  | Ok items =>
      let '(r, k) := run_loop (fun obj => extract_geometry obj ≫= body) items in
      (r, consume ftrz k h)
  end.

(** Lines 310-318: the bounds inferred from the geometries, and the object
    that is left in [ftrz] for the rasterizer. *)
Definition infer_bounds (ftrz : value) : M (bbox_t * value) := fun h =>
  let '(coord_ftrz, ftrz, h) :=
    match ftrz with
    | VGen g => tee g h
    | _ => (ftrz, ftrz, h)
    end in
  (bounds ← for_geometries shape_bounds coord_ftrz;
   let coords := concat bounds in
   x_min ← lift (py_min (slice_step 0 4 coords));
   y_min ← lift (py_min (slice_step 1 4 coords));
   x_max ← lift (py_max (slice_step 2 4 coords));
   y_max ← lift (py_max (slice_step 3 4 coords));
   mret ((x_min, y_min, x_max, y_max), ftrz)) h.

(** Lines 292-335 up to the call of [rasterize]: validation, bounds, grid
    dimensions and the geometries handed to the rasterizer.  [rasterize]
    iterates over all of its [shapes]; the geometries are extracted here,
    right before the call. *)
Definition render_call (ftrz : value) (width : Z) (fill value : string)
    (all_touched : bool) (bbox : option bbox_t) : M rasterize_call :=
  if negb (String.length fill =? 1)%nat then raise ValueError
  else if negb (String.length value =? 1)%nat then raise ValueError
  else if (width <=? 0)%Z then raise ValueError
  else
    '(x_min, y_min, x_max, y_max, ftrz) ←
      match bbox with
      | Some b => mret (b, ftrz)
      | None => infer_bounds ftrz
      end;
    let x_delta := (x_max - x_min)%Q in
    let y_delta := (y_max - y_min)%Q in
    let cell_size := (x_delta / inject_Z width)%Q in
    rows ← lift (py_div y_delta cell_size);
    let height := py_int rows in
    let height := if (height =? 0)%Z then 1%Z else height in
    shapes ← for_geometries Ok ftrz;
    mret (RasterizeCall shapes (height, width)
            (FromGdal x_min cell_size 0 y_max 0 (- cell_size)) all_touched).

(** Lines 292-349. *)
Definition render (ftrz : value) (width : Z) (fill value : string)
    (all_touched : bool) (bbox : option bbox_t) : M string :=
  call ← render_call ftrz width fill value all_touched bbox;
  output_array ← lift (rasterize call);
  mret (array_to_text fill value output_array).

End Render.

(** ** Instances of the two collaborators, for concrete runs *)

(** The positions (x, y) in a GeoJSON [coordinates] member. *)
Fixpoint positions (c : value) : list (Q * Q) :=
  match c with
  | VList (VNum x :: VNum y :: _) => [(x, y)]
  | VList items => flat_map positions items
  | _ => []
  end.

(** The bounds (minx, miny, maxx, maxy) of the positions of a geometry, and
    the empty tuple when it has none. *)
Definition coordinate_bounds (g : value) : result (list Q) :=
  match g with
  | VDict d =>
      match d !! "coordinates" with
      | Some c =>
          match positions c with
          | [] => Ok []
          | pts =>
              x0 ← py_min (map fst pts); y0 ← py_min (map snd pts);
              x1 ← py_max (map fst pts); y1 ← py_max (map snd pts);
              Ok [x0; y0; x1; y1]
          end
      | None => Raise LibraryError
      end
  | _ => Raise LibraryError
  end.

(** The cell (row, column) that holds the position (x, y). *)
Definition cell_of (t : geotransform) (p : Q * Q) : Z * Z :=
  (Qfloor ((snd p - gt_f t) / gt_e t), Qfloor ((fst p - gt_c t) / gt_a t)).

(** A rasterizer that burns the cell under every vertex of every shape, which
    is what rasterizing Point and MultiPoint geometries amounts to. *)
Definition rasterize_vertices (call : rasterize_call) : result (list (list bool)) :=
  let '(height, width) := rc_out_shape call in
  if (height <? 0)%Z || (width <? 0)%Z then Raise ValueError
  else
    let burnt :=
      flat_map (fun g => match g with
                         | VDict d => match d !! "coordinates" with
                                      | Some c => map (cell_of (rc_transform call)) (positions c)
                                      | None => []
                                      end
                         | _ => []
                         end) (rc_shapes call) in
    Ok (map (fun r => map (fun c =>
               existsb (fun rc => (fst rc =? Z.of_nat r)%Z && (snd rc =? Z.of_nat c)%Z) burnt)
             (seq 0 (Z.to_nat width)))
            (seq 0 (Z.to_nat height))).

Definition point (x y : Q) : value :=
  VDict {[ "type" := VStr "Point"; "coordinates" := VList [VNum x; VNum y] ]}.

Definition multipoint (pts : list (Q * Q)) : value :=
  VDict {[ "type" := VStr "MultiPoint";
           "coordinates" := VList (map (fun p => VList [VNum (fst p); VNum (snd p)]) pts) ]}.

Definition feature (g : value) : value :=
  VDict {[ "type" := VStr "Feature"; "geometry" := g ]}.

Definition empty_heap : heap := Heap [] [].

(** [s] followed by the line separator. *)
Definition nl (s : string) : string := s +:+ linesep.

(** The two layers of the example in the docstring of [stack]. *)
Definition star_layer : string :=
  nl "* * * * *" +:+ nl "    *    " +:+ nl "* * * * *".
Definition plus_layer : string :=
  nl "+       +" +:+ nl "         " +:+ nl "+       +".

(** A heap with one plain (non-generator) iterator over one geometry. *)
Definition corner_points : value := multipoint [(0, 2); (2, 0)]%Q.
Definition one_iterator_heap : heap := Heap [Items [corner_points]] [].

(** ** [dict2table] *)

(** [d[k] = v] on an ordered dictionary: a key that is present keeps its
    position and takes the new value, a new key goes to the end. *)
Fixpoint ordered_set {V} (k : string) (v : V) (d : list (string * V))
  : list (string * V) :=
  match d with
  | [] => [(k, v)]
  | (k', v') :: rest =>
      if String.eqb k' k then (k', v) :: rest
      else (k', v') :: ordered_set k v rest
  end.

(** [OrderedDict(pairs)] *)
Definition ordered_dict {V} (pairs : list (string * V)) : list (string * V) :=
  fold_left (fun d kv => ordered_set (fst kv) (snd kv) d) pairs [].

(** [c * n] for a character [c]. *)
Fixpoint repeat_char (c : ascii) (n : nat) : string :=
  match n with
  | O => ""
  | S n' => String c (repeat_char c n')
  end.

(** [max(l)] on lengths. *)
Definition py_max_nat (l : list nat) : result nat :=
  match l with
  | [] => Raise ValueError
  | x :: xs => Ok (fold_left Nat.max xs x)
  end.

Section Table.

(** [text_type(v)], the text of a value.  The keys of a dictionary are
    strings, which [text_type] leaves as they are. *)
Variable text_type : value -> string.

(** Lines 76-100: the list [output] of the lines of the table.  The
    dictionary is given by its items, in iteration order. *)
Definition dict2table_lines (dictionary : list (string * value))
  : result (list string) :=
  match dictionary with
  | [] => Raise ValueError
  | _ =>
      let dictionary :=
        ordered_dict (map (fun kv => (fst kv, text_type (snd kv))) dictionary) in
      prop_width ← py_max_nat (map (fun kv => String.length (fst kv)) dictionary);
      value_width ← py_max_nat (map (fun kv => String.length (snd kv)) dictionary);
      let divider :=
        join "" ["+"; repeat_char "-" (prop_width + 2); "+";
                 repeat_char "-" (value_width + 2); "+"] in
      let rows :=
        map (fun kv =>
               let prop := fst kv in
               let value := snd kv in
               let prop_content :=
                 prop +:+ repeat_char " " (prop_width - String.length prop) in
               let value_content :=
                 repeat_char " " (value_width - String.length value) +:+ value in
               "| " +:+ prop_content +:+ " | " +:+ value_content +:+ " |")
            dictionary in
      Ok ([divider] ++ rows ++ [divider])
  end.

(** Lines 46-102. *)
Definition dict2table (dictionary : list (string * value)) : result string :=
  join linesep <$> dict2table_lines dictionary.

(** Lines 105-114: the deprecated alias (its warning is not modelled). *)
Definition dict_table (dictionary : list (string * value)) : result string :=
  dict2table dictionary.

End Table.

(** ** [paginate] *)

(** The keyword arguments that [paginate] passes on to [render]. *)
Record render_options : Type := RenderOptions {
  opt_width : Z;
  opt_fill : string;
  opt_value : string;
  opt_all_touched : bool;
  opt_bbox : option bbox_t
}.

(** The defaults of [render]. *)
Definition default_options : render_options :=
  RenderOptions 40 " " "+" false None.

(** [obj[key]] for a string [key]: a [KeyError] when a mapping lacks the key,
    a [TypeError] on anything that is not a mapping. *)
Definition getitem (obj : value) (key : string) : result value :=
  match obj with
  | VDict d =>
      match d !! key with
      | Some v => Ok v
      | None => Raise KeyError
      end
  | _ => Raise TypeError
  end.

(** What a generator has done when it stops: the texts it has yielded, and
    the exception that ended it, if one did. *)
Definition yielded : Type := list string * option exn.

Definition yield_first (text : string) (rest : yielded) : yielded :=
  (text :: fst rest, snd rest).

Section Paginate.

Variable text_type : value -> string.
Variable shape_bounds : value -> result (list Q).
Variable rasterize : rasterize_call -> result (list (list bool)).

(** Lines 379-380: the attribute table of one item. *)
Definition item_table (properties : list string) (item : value) : result string :=
  pairs ← mapM (fun p =>
                  props ← getitem item "properties";
                  v ← getitem props p;
                  Ok (p, v)) properties;
  dict2table text_type (ordered_dict pairs).

(** Lines 376-384, the body of the loop: the text yielded for one item. *)
Definition page (properties : option (list string)) (opts : render_options)
    (item : value) : M string :=
  output ← match properties with
           | Some props => table ← lift (item_table props item); mret [table]
           | None => mret []
           end;
  rendering ← render shape_bounds rasterize item (opt_width opts) (opt_fill opts)
                     (opt_value opts) (opt_all_touched opts) (opt_bbox opts);
  mret (join linesep (output ++ [rendering]) +:+ linesep).

(** The loop of line 374 over a list. *)
Fixpoint paginate_list (properties : option (list string)) (opts : render_options)
    (items : list value) (h : heap) : yielded * heap :=
  match items with
  | [] => (([], None), h)
  | item :: rest =>
      match page properties opts item h with
      | (Raise e, h') => (([], Some e), h')
      | (Ok text, h') =>
          let '(r, h'') := paginate_list properties opts rest h' in
          (yield_first text r, h'')
      end
  end.

(** The loop of line 374 over a one-shot iterator, one [next] at a time, for
    at most [fuel] items; [None] when the iterator holds more than that. *)
Fixpoint paginate_iter (fuel : nat) (properties : option (list string))
    (opts : render_options) (it : nat) (h : heap) : option yielded * heap :=
  match next_item it h with
  | (None, h') => (Some ([], None), h')
  | (Some item, h') =>
      match fuel with
      | O => (None, h')
      | S fuel' =>
          match page properties opts item h' with
          | (Raise e, h'') => (Some ([], Some e), h'')
          | (Ok text, h'') =>
              let '(r, h3) := paginate_iter fuel' properties opts it h'' in
              (yield_first text <$> r, h3)
          end
      end
  end.

(** Lines 352-384: [paginate] run until its generator stops.  Iterating a
    mapping gives its keys (here in the order of the map), iterating a string
    its characters; [None], numbers and objects with [__geo_interface__] are
    taken not to be iterable. *)
Definition paginate (ftrz : value) (properties : option (list string))
    (opts : render_options) (h : heap) : option yielded * heap :=
  match ftrz with
  | VList items =>
      let '(r, h') := paginate_list properties opts items h in (Some r, h')
  | VDict d =>
      let '(r, h') :=
        paginate_list properties opts (map (fun kv => VStr (fst kv)) (map_to_list d)) h in
      (Some r, h')
  | VStr s =>
      let '(r, h') :=
        paginate_list properties opts
          (map (fun c => VStr (char_str c)) (list_ascii_of_string s)) h in
      (Some r, h')
  | VGen it | VIter it =>
      paginate_iter (length (pending_items it h)) properties opts it h
  | VNone | VNum _ | VGeo _ => (Some ([], Some TypeError), h)
  end.

End Paginate.

(** A text conversion for strings and [None], enough for concrete runs. *)
Definition text_of (v : value) : string :=
  match v with
  | VStr s => s
  | VNone => "None"
  | _ => "?"
  end.

(** A feature with two properties, and a dictionary of three attributes. *)
Definition sample_feature : value :=
  VDict {[ "type" := VStr "Feature"; "geometry" := corner_points;
           "properties" := VDict {[ "a" := VStr "x"; "bb" := VNone ]} ]}.

Definition sample_attributes : list (string * value) :=
  [("ALAND", VStr "883338808"); ("CBSAFP", VNone); ("CLASSFP", VStr "H1")].

(** Anything but a one-shot iterator. *)
Definition plain (item : value) : Prop :=
  match item with
  | VGen _ | VIter _ => False
  | _ => True
  end.

(** Options for small pictures, and an iterator over three items of which
    the second is not a feature. *)
Definition small_options : render_options := RenderOptions 2 "." "+" false None.
Definition three_item_heap : heap :=
  Heap [Items [sample_feature; VDict ∅; sample_feature]] [].

(** The character that [stack] with the blank fill puts in a cell. *)
Definition composite_char (pixel_stack : list ascii) : ascii :=
  default SPACE (last (filter (fun _p => _p <> SPACE) pixel_stack)).

(** * Properties *)

(** ** Layer shape checks of [stack] *)

(** C1.  The claim asks [stack] to raise a [ValueError] whenever the layers
    differ in their number of lines.  The code only compares the lengths of
    the rows that [zip] aligns; [zip] stops at the shortest layer, so a
    two-line layer over a one-line layer is stacked into one line without any
    error.  A difference in row length, in contrast, does raise. *)
Theorem stack_truncates_to_shortest_layer :
  stack [nl "+ +" +:+ nl "+ +"; nl "+ +"] " " = Ok (nl "+ +")
  /\ stack [nl "+ +"; nl "+ + +"] " " = Raise ValueError.
Proof. split; reflexivity. Qed.

(** ** Symbols of the grid-to-text conversion *)

(** C4.  The claim asks every 0 cell to become [fill] and every 1 cell to
    become [value], for every fill including ['1'].  With [fill = '1'] the
    first replacement turns the 0 cells into ['1'] and the second replacement
    is skipped by its guard [fill != '1'], so the 1 cell of a grid stays
    ['1'] instead of becoming ['+']. *)
Theorem to_symbols_fill_one_keeps_one :
  to_symbols "1" "+" [[false; true]] = [["1"; "1"]]
  /\ array_to_text "1" "+" [[false; true]] = nl "1 1".
Proof. split; reflexivity. Qed.

(** ** Degenerate bounds *)

(** C2.  The claim asks [render] to succeed on every degenerate bounding
    rectangle.  When [x_min = x_max] the cell size is zero and the division
    of line 323 raises [ZeroDivisionError], both for an explicit zero-area
    [bbox] and for the inferred bounds of a single point. *)
Theorem render_zero_width_bbox_raises
    (shape_bounds : value -> result (list Q))
    (rasterize : rasterize_call -> result (list (list bool)))
    (ftrz : value) (h : heap) :
  render shape_bounds rasterize ftrz 40 " " "+" false (Some (0, 0, 0, 0)%Q) h
    = (Raise ZeroDivisionError, h)
  /\ render coordinate_bounds rasterize (point 3 5) 40 " " "+" false None h
    = (Raise ZeroDivisionError, h).
Proof. split; reflexivity. Qed.

(** ** Elements without a type tag *)

(** C9.  The claim asks a mapping with a ['coordinates'] entry to be yielded
    unchanged whatever its other keys, and every unrecognised element to
    raise a [TypeError].  The code reads [obj['type']] first, so a mapping
    without a ['type'] key raises [KeyError], with or without coordinates. *)
Theorem extract_geometry_untyped_mapping_key_error :
  extract_geometry (VDict {[ "coordinates" := VList [VNum 0; VNum 0] ]}) = Raise KeyError
  /\ extract_geometry (VDict ∅) = Raise KeyError.
Proof. split; reflexivity. Qed.

(** ** Single-layer stacking against re-rendering *)

(** C6.  The claim asks [stack([render(g, width=w)], fill=f)] to equal
    [render(g, width=w, fill=f)] for every one-character [f].  For [f = '1']
    the stacked layer keeps its ['+'] cell while the re-rendered picture shows
    ['1'] in every cell. *)
Theorem stack_single_layer_differs_for_fill_one :
  fst (render coordinate_bounds rasterize_vertices corner_points 2 " " "+" false None empty_heap)
    = Ok (nl "+  " +:+ nl "   ")
  /\ stack [nl "+  " +:+ nl "   "] "1" = Ok (nl "+ 1" +:+ nl "1 1")
  /\ fst (render coordinate_bounds rasterize_vertices corner_points 2 "1" "+" false None empty_heap)
    = Ok (nl "1 1" +:+ nl "1 1").
Proof. repeat split; vm_compute; reflexivity. Qed.

(** ** The heap-and-error monad *)

Lemma M_bind_unfold {A B} (m : M A) (k : A -> M B) h :
  (m ≫= k) h = match m h with
               | (Ok a, h') => k a h'
               | (Raise e, h') => (Raise e, h')
               end.
Proof. reflexivity. Qed.

Lemma M_bind_raises {A B} (m : M A) (k : A -> M B) h e :
  fst (m h) = Raise e -> fst ((m ≫= k) h) = Raise e.
Proof.
  rewrite M_bind_unfold. destruct (m h) as [[a|e'] h']; cbn; congruence.
Qed.

Lemma M_bind_ok {A B} (m : M A) (k : A -> M B) h a h' :
  m h = (Ok a, h') -> (m ≫= k) h = k a h'.
Proof. intros Hm. by rewrite M_bind_unfold, Hm. Qed.

(** ** Validation of the arguments of [render] *)

Section RenderFacts.

Variable shape_bounds : value -> result (list Q).
Variable rasterize : rasterize_call -> result (list (list bool)).

Lemma render_call_invalid ftrz width fill value all_touched bbox h :
  (width <= 0)%Z \/ String.length fill <> 1%nat \/ String.length value <> 1%nat ->
  render_call shape_bounds ftrz width fill value all_touched bbox h
    = (Raise ValueError, h).
Proof.
  intros Hbad. unfold render_call.
  destruct (Nat.eqb_spec (String.length fill) 1) as [Hf|Hf]; simpl; [|done].
  destruct (Nat.eqb_spec (String.length value) 1) as [Hv|Hv]; simpl; [|done].
  destruct (Z.leb_spec width 0) as [Hw|Hw]; [done|].
  destruct Hbad as [?|[?|?]]; [lia|done|done].
Qed.

(** C8.  [render] raises a [ValueError] whenever [width <= 0] or one of the
    two symbols is not exactly one character long, and it does so before
    anything is taken from the geometry source: the heap of iterators is
    returned as it was received. *)
Theorem render_rejects_invalid_arguments ftrz width fill value all_touched bbox h :
  (width <= 0)%Z \/ String.length fill <> 1%nat \/ String.length value <> 1%nat ->
  render shape_bounds rasterize ftrz width fill value all_touched bbox h
    = (Raise ValueError, h).
Proof.
  intros Hbad. unfold render, mbind, M_bind.
  by rewrite render_call_invalid.
Qed.

End RenderFacts.

Lemma render_rejects_invalid_arguments_witness :
  render coordinate_bounds rasterize_vertices (VGen 0) (-5) "ab" "" false None
         (Heap [Items [corner_points]] [])
    = (Raise ValueError, Heap [Items [corner_points]] []).
Proof.
  apply (render_rejects_invalid_arguments coordinate_bounds rasterize_vertices).
  left. lia.
Defined.

(** ** Iterators and [tee] *)

(** Iterating step by step agrees with the items an iterator is said to
    hold: [next] returns the first pending item and leaves the others. *)
Lemma next_item_head it h : fst (next_item it h) = head (pending_items it h).
Proof.
  unfold next_item, pending_items.
  destruct (iters h !! it) as [[[|x rest]|b pos]|] eqn:Hit; try done.
  destruct (tees h !! b) as [[src seen]|] eqn:Hb; [|done].
  destruct (seen !! pos) as [x|] eqn:Hpos.
  - cbn. by rewrite (drop_S _ _ _ Hpos).
  - rewrite (drop_ge seen pos) by (by apply lookup_ge_None_1).
    by destruct (iters h !! src) as [[[|x rest]|b' pos']|].
Qed.

Lemma next_item_tail it h :
  pending_items it (snd (next_item it h)) = tail (pending_items it h).
Proof.
  unfold next_item.
  destruct (iters h !! it) as [[[|x rest]|b pos]|] eqn:Hit;
    try (unfold pending_items; cbn [snd]; by rewrite Hit).
  - pose proof (lookup_lt_Some _ _ _ Hit) as Hlt.
    unfold pending_items. cbn [snd iters]. rewrite list_lookup_insert_eq by done.
    by rewrite Hit.
  - pose proof (lookup_lt_Some _ _ _ Hit) as Hlt.
    destruct (tees h !! b) as [[src seen]|] eqn:Hb;
      [|unfold pending_items; cbn [snd]; by rewrite Hit, Hb].
    pose proof (lookup_lt_Some _ _ _ Hb) as Hblt.
    destruct (seen !! pos) as [x|] eqn:Hpos.
    + unfold pending_items. cbn [snd iters tees].
      rewrite list_lookup_insert_eq by done. rewrite Hit, Hb.
      rewrite (drop_S _ _ _ Hpos). cbn [app tail]. f_equal.
      destruct (decide (it = src)) as [->|Hne].
      * rewrite list_lookup_insert_eq by done. by rewrite Hit.
      * by rewrite list_lookup_insert_ne.
    + apply lookup_ge_None_1 in Hpos.
      destruct (iters h !! src) as [[[|x rest]|b' pos']|] eqn:Hsrc;
        try (unfold pending_items; cbn [snd]; rewrite Hit, Hb, Hsrc;
             by rewrite drop_ge).
      assert (it <> src) by congruence.
      pose proof (lookup_lt_Some _ _ _ Hsrc) as Hsrclt.
      unfold pending_items. cbn [snd iters tees].
      rewrite list_lookup_insert_eq by (by rewrite length_insert).
      rewrite list_lookup_insert_eq by done.
      rewrite list_lookup_insert_ne by done.
      rewrite list_lookup_insert_eq by done.
      rewrite Hit, Hb, Hsrc.
      rewrite (drop_ge seen pos) by done.
      rewrite (drop_ge (seen ++ [x])); [done|]. rewrite length_app. cbn [length]. lia.
Qed.

Lemma pending_items_advance it k : forall h,
  pending_items it (advance it k h) = drop k (pending_items it h).
Proof.
  induction k as [|k IH]; intros h; cbn [advance]; [by rewrite drop_0|].
  rewrite IH, next_item_tail.
  destruct (pending_items it h) as [|x l]; [|done].
  cbn [tail]. by destruct k.
Qed.

Lemma tee_spec g h :
  tee g h = (VIter (length (iters h)), VIter (S (length (iters h))),
             Heap (iters h ++ [TeeCursor (length (tees h)) 0; TeeCursor (length (tees h)) 0])
                  (tees h ++ [TeeCell g []])).
Proof. reflexivity. Qed.

Lemma pending_items_tee_first g h :
  pending_items (length (iters h)) (snd (tee g h)) = source_rest g h.
Proof.
  rewrite tee_spec. unfold pending_items, source_rest. cbn [snd iters tees].
  rewrite lookup_app_r by lia. rewrite Nat.sub_diag. cbn [lookup list_lookup].
  rewrite lookup_app_r by lia. rewrite Nat.sub_diag. cbn.
  destruct (decide (g < length (iters h))%nat) as [Hlt|Hge].
  - by rewrite lookup_app_l by done.
  - rewrite lookup_app_r by lia.
    rewrite (lookup_ge_None_2 (iters h) g) by lia.
    destruct (g - length (iters h))%nat as [|[|n]]; done.
Qed.

Section EmptySource.

Variable shape_bounds : value -> result (list Q).
Variable rasterize : rasterize_call -> result (list (list bool)).

Lemma infer_rest_empty coord_ftrz ftrz' h :
  source_items coord_ftrz h = Ok [] ->
  fst ((bounds ← for_geometries shape_bounds coord_ftrz;
        let coords := concat bounds in
        x_min ← lift (py_min (slice_step 0 4 coords));
        y_min ← lift (py_min (slice_step 1 4 coords));
        x_max ← lift (py_max (slice_step 2 4 coords));
        y_max ← lift (py_max (slice_step 3 4 coords));
        mret ((x_min, y_min, x_max, y_max), ftrz' : value)) h) = Raise ValueError.
Proof.
  intros Hsrc. unfold mbind, M_bind, for_geometries. rewrite Hsrc. reflexivity.
Qed.

Lemma infer_bounds_empty ftrz h :
  source_items ftrz h = Ok [] ->
  fst (infer_bounds shape_bounds ftrz h) = Raise ValueError.
Proof.
  intros Hsrc. unfold infer_bounds.
  destruct ftrz as [| |s|items|d|m|g|it]; try discriminate Hsrc;
    try (by apply infer_rest_empty).
  rewrite tee_spec. apply infer_rest_empty.
  cbn [source_items]. f_equal.
  pose proof (pending_items_tee_first g h) as Hp. rewrite tee_spec in Hp.
  cbn [snd] in Hp. rewrite Hp.
  cbn [source_items] in Hsrc. injection Hsrc as Hsrc.
  unfold pending_items in Hsrc. unfold source_rest.
  destruct (iters h !! g) as [[rest|b pos]|]; done.
Qed.

(** C10.  When the geometry source yields nothing and no [bbox] is given,
    [render] raises a [ValueError]: [min] is applied to an empty list of
    coordinates. *)
Theorem render_empty_source_raises ftrz width fill value all_touched h :
  String.length fill = 1%nat -> String.length value = 1%nat -> (0 < width)%Z ->
  source_items ftrz h = Ok [] ->
  fst (render shape_bounds rasterize ftrz width fill value all_touched None h)
    = Raise ValueError.
Proof.
  intros Hf Hv Hw Hsrc.
  pose proof (infer_bounds_empty ftrz h Hsrc) as Hinf.
  unfold render, render_call.
  rewrite Hf, Hv. cbn [Nat.eqb negb].
  destruct (Z.leb_spec width 0) as [?|_]; [lia|].
  by do 2 apply M_bind_raises.
Qed.

End EmptySource.

Lemma render_empty_source_raises_witness :
  fst (render coordinate_bounds rasterize_vertices (VGen 0) 40 " " "+" false None
              (Heap [Items []] [])) = Raise ValueError.
Proof.
  apply (render_empty_source_raises coordinate_bounds rasterize_vertices);
    [reflexivity | reflexivity | lia | reflexivity].
Defined.







(** ** Generators given to [render] *)

Section GeneratorSource.

Variable shape_bounds : value -> result (list Q).
Variable rasterize : rasterize_call -> result (list (list bool)).

Lemma for_geometries_fst {A} (body : value -> result A) ftrz h :
  fst (for_geometries body ftrz h)
  = items ← source_items ftrz h;
    fst (run_loop (fun obj => extract_geometry obj ≫= body) items).
Proof.
  unfold for_geometries. destruct (source_items ftrz h) as [items|e]; [|done].
  cbn. by destruct (run_loop _ items).
Qed.


(** What [render_call] does once the bounds are known depends on the source
    only through the items it produces. *)
Lemma render_call_tail_fst (width : Z) (all_touched : bool) bb ftrz1 h1 ftrz2 h2 :
  source_items ftrz1 h1 = source_items ftrz2 h2 ->
  fst ((let '(x_min, y_min, x_max, y_max, ftrz) := (bb, ftrz1) in
        let x_delta := (x_max - x_min)%Q in
        let y_delta := (y_max - y_min)%Q in
        let cell_size := (x_delta / inject_Z width)%Q in
        rows ← lift (py_div y_delta cell_size);
        let height := py_int rows in
        let height := if (height =? 0)%Z then 1%Z else height in
        shapes ← for_geometries Ok ftrz;
        mret (RasterizeCall shapes (height, width)
                (FromGdal x_min cell_size 0 y_max 0 (- cell_size)) all_touched)) h1)
  = fst ((let '(x_min, y_min, x_max, y_max, ftrz) := (bb, ftrz2) in
        let x_delta := (x_max - x_min)%Q in
        let y_delta := (y_max - y_min)%Q in
        let cell_size := (x_delta / inject_Z width)%Q in
        rows ← lift (py_div y_delta cell_size);
        let height := py_int rows in
        let height := if (height =? 0)%Z then 1%Z else height in
        shapes ← for_geometries Ok ftrz;
        mret (RasterizeCall shapes (height, width)
                (FromGdal x_min cell_size 0 y_max 0 (- cell_size)) all_touched)) h2).
Proof.
  intros Hsrc. destruct bb as [[[x_min y_min] x_max] y_max]. cbn zeta.
  rewrite !M_bind_unfold. unfold lift.
  destruct (py_div _ _) as [rows|e]; [|done].
  rewrite !M_bind_unfold.
  pose proof (for_geometries_fst Ok ftrz1 h1) as F1.
  pose proof (for_geometries_fst Ok ftrz2 h2) as F2.
  rewrite Hsrc in F1. rewrite <- F2 in F1.
  destruct (for_geometries Ok ftrz1 h1) as [[s1|e1] h1'],
           (for_geometries Ok ftrz2 h2) as [[s2|e2] h2'];
    cbn in F1; try discriminate; by simplify_eq.
Qed.



End GeneratorSource.



(** ** Sequences *)

Lemma zip_star_lookup {A} (rows : list (list A)) i :
  rows <> [] -> zip_star rows !! i = mapM (fun r => r !! i) rows.
Proof.
  induction rows as [|r rows IH]; [done|]. intros _.
  destruct rows as [|r' rows].
  - cbn. rewrite list_lookup_fmap. by destruct (r !! i).
  - change (zip_star (r :: r' :: rows)) with (zip_with cons r (zip_star (r' :: rows))).
    rewrite lookup_zip_with, IH by done.
    change (mapM (fun r => r !! i) (r :: r' :: rows))
      with (y ← r !! i; k ← mapM (fun r => r !! i) (r' :: rows); mret (y :: k)).
    done.
Qed.

Lemma zip_star_length {A} (rows : list (list A)) n :
  rows <> [] -> Forall (fun r => length r = n) rows -> length (zip_star rows) = n.
Proof.
  induction rows as [|r rows IH]; [done|]. intros _ Hall.
  apply Forall_cons in Hall as [Hr Hall].
  destruct rows as [|r' rows].
  - cbn. by rewrite length_map.
  - change (zip_star (r :: r' :: rows)) with (zip_with cons r (zip_star (r' :: rows))).
    rewrite length_zip_with, IH by done. lia.
Qed.

Lemma every_other_lookup {A} (l : list A) j : every_other l !! j = l !! (2 * j)%nat.
Proof.
  revert l. induction j as [|j IH]; intros l.
  - by destruct l.
  - replace (2 * S j)%nat with (S (S (2 * j))) by lia.
    destruct l as [|x [|y rest]]; [done|done|]. cbn. apply IH.
Qed.


Lemma remove_dups_constant (n : nat) (l : list nat) :
  l <> [] -> Forall (fun x => x = n) l -> remove_dups l = [n].
Proof.
  induction l as [|x l IH]; [done|]. intros _ Hall.
  apply Forall_cons in Hall as [-> Hall]. cbn.
  destruct l as [|y l]; [done|].
  destruct (decide_rel elem_of n (y :: l)) as [_|Hnot]; [by apply IH|].
  apply Forall_cons in Hall as [-> _]. destruct Hnot. left.
Qed.

(** ** Compositing *)




Lemma length_list_ascii (s : string) : length (list_ascii_of_string s) = String.length s.
Proof. induction s as [|c s IH]; [done|]. cbn. by rewrite IH. Qed.

Lemma stack_row_uniform fill (row_stack : list string) n :
  row_stack <> [] -> Forall (fun r => String.length r = n) row_stack ->
  stack_row fill row_stack
  = Ok (join " " (map (composite_pixel fill)
          (zip_star (map (fun r => every_other (list_ascii_of_string r)) row_stack)))).
Proof.
  intros Hne Hall. unfold stack_row.
  rewrite (remove_dups_constant n); [done| |].
  - by destruct row_stack.
  - by apply Forall_fmap.
Qed.

Lemma stack_rows_uniform fill (row_stacks : list (list string)) :
  Forall (fun rs => rs <> [] /\ exists n, Forall (fun r => String.length r = n) rs) row_stacks ->
  stack_rows fill row_stacks
  = Ok (map (fun rs => join " " (map (composite_pixel fill)
          (zip_star (map (fun r => every_other (list_ascii_of_string r)) rs)))) row_stacks).
Proof.
  induction 1 as [|rs rest [Hne [n Hn]] _ IH]; [done|].
  cbn [stack_rows]. rewrite (stack_row_uniform fill rs n Hne Hn). cbn.
  by rewrite IH.
Qed.

(** The aligned rows of equally shaped layers: row [i] holds line [i] of
    every layer, all of the length that the shape gives. *)
Lemma aligned_rows (layers : list string) (shape : list nat) i len :
  layers <> [] -> Forall (fun layer => layer_shape layer = shape) layers ->
  shape !! i = Some len ->
  exists row_stack,
    zip_star (map splitlines layers) !! i = Some row_stack
    /\ Forall2 (fun layer line => splitlines layer !! i = Some line) layers row_stack
    /\ Forall (fun line => String.length line = len) row_stack.
Proof.
  intros Hne Hshape Hi.
  assert (Hline : forall layer, layer ∈ layers ->
            exists line, splitlines layer !! i = Some line /\ String.length line = len).
  { intros layer Hin. rewrite Forall_forall in Hshape. specialize (Hshape _ Hin).
    unfold layer_shape in Hshape. rewrite <- Hshape, list_lookup_fmap in Hi.
    destruct (splitlines layer !! i) as [line|]; [|done]. exists line.
    split; [done|]. by injection Hi. }
  rewrite zip_star_lookup by (by destruct layers).
  destruct (mapM (fun r : list string => r !! i) (map splitlines layers)) as [row_stack|] eqn:Hm.
  - exists row_stack. apply mapM_Some in Hm. rewrite Forall2_fmap_l in Hm.
    split; [done|]. split; [done|].
    apply Forall_forall. intros line Hl.
    apply list_elem_of_lookup in Hl as [k Hk].
    destruct (Forall2_lookup_r _ _ _ _ _ Hm Hk) as (layer & Hlayer & Hsl).
    destruct (Hline layer) as (line' & Hsl' & Hlen); [by eapply list_elem_of_lookup_2|].
    cbn beta in Hsl. congruence.
  - apply mapM_None in Hm. apply Exists_exists in Hm as (ls & Hin & Hnone).
    apply list_elem_of_fmap in Hin as (layer & -> & Hin).
    destruct (Hline layer Hin) as (line & Hsl & _). by rewrite Hsl in Hnone.
Qed.




(** ** Strings as character lists *)

Lemma string_app_cons c (s1 s2 : string) : String c s1 +:+ s2 = String c (s1 +:+ s2).
Proof. reflexivity. Qed.

Lemma string_app_nil (s : string) : "" +:+ s = s.
Proof. reflexivity. Qed.

Lemma list_ascii_app (s1 s2 : string) :
  list_ascii_of_string (s1 +:+ s2) = list_ascii_of_string s1 ++ list_ascii_of_string s2.
Proof.
  induction s1 as [|c s1 IH]; [done|]. rewrite string_app_cons. cbn. by rewrite IH.
Qed.

Lemma string_app_assoc (s1 s2 s3 : string) : (s1 +:+ s2) +:+ s3 = s1 +:+ (s2 +:+ s3).
Proof.
  induction s1 as [|c s1 IH]; [done|]. rewrite !string_app_cons. by rewrite IH.
Qed.

Lemma string_app_length (s1 s2 : string) :
  String.length (s1 +:+ s2) = (String.length s1 + String.length s2)%nat.
Proof.
  induction s1 as [|c s1 IH]; [done|]. rewrite string_app_cons. cbn. by rewrite IH.
Qed.

Lemma lstrip_stop chars c rest :
  in_chars chars c = false -> lstrip chars (String c rest) = String c rest.
Proof. intros Hc. cbn. by rewrite Hc. Qed.

Lemma in_chars_linesep c : in_chars linesep c = Ascii.eqb c LF.
Proof. unfold in_chars. cbn. by rewrite orb_false_r. Qed.

(** Stripping line separators from a text that ends in one separator and
    neither starts nor otherwise ends with one removes just that separator. *)
Lemma strip_final_linesep (s : string) c c' :
  head (list_ascii_of_string s) = Some c -> c <> LF ->
  last (list_ascii_of_string s) = Some c' -> c' <> LF ->
  strip linesep (s +:+ linesep) = s.
Proof.
  intros Hhd Hc Hlast Hc'. unfold strip.
  destruct s as [|c0 rest]; [done|]. cbn in Hhd. injection Hhd as ->.
  change (String c rest +:+ linesep) with (String c (rest +:+ linesep)).
  rewrite lstrip_stop by (rewrite in_chars_linesep; by apply Ascii.eqb_neq).
  change (String c (rest +:+ linesep)) with (String c rest +:+ linesep).
  unfold string_rev at 2. rewrite list_ascii_app, rev_app_distr.
  apply last_Some in Hlast as [init Hinit]. rewrite Hinit, rev_app_distr.
  cbn [list_ascii_of_string linesep rev app string_of_list_ascii lstrip].
  rewrite in_chars_linesep, Ascii.eqb_refl, in_chars_linesep.
  apply Ascii.eqb_neq in Hc' as ->.
  unfold string_rev.
  change (String c' (string_of_list_ascii (rev init)))
    with (string_of_list_ascii (c' :: rev init)).
  rewrite list_ascii_of_string_of_list_ascii. cbn [rev]. rewrite rev_involutive.
  rewrite <- Hinit. apply string_of_list_ascii_of_string.
Qed.

Lemma join_cons sep p q rest :
  join sep (p :: q :: rest) = p +:+ sep +:+ join sep (q :: rest).
Proof. reflexivity. Qed.

Lemma head_join sep p rest c :
  head (list_ascii_of_string p) = Some c ->
  head (list_ascii_of_string (join sep (p :: rest))) = Some c.
Proof.
  intros Hp. destruct rest as [|q rest]; [done|].
  rewrite join_cons, list_ascii_app. by destruct (list_ascii_of_string p).
Qed.

Lemma last_join sep parts p c :
  last (list_ascii_of_string p) = Some c ->
  last (list_ascii_of_string (join sep (parts ++ [p]))) = Some c.
Proof.
  intros Hp. induction parts as [|q parts IH]; [done|].
  destruct parts as [|q' parts]; cbn [app] in *.
  - rewrite join_cons, !list_ascii_app, !last_app. cbn [join]. by rewrite Hp.
  - rewrite join_cons, !list_ascii_app, !last_app. by rewrite IH.
Qed.

Lemma savetxt_join (a : list (list string)) :
  a <> [] -> savetxt a = join linesep (map (join " ") a) +:+ linesep.
Proof.
  induction a as [|row a IH]; [done|]. intros _.
  destruct a as [|row' a].
  - reflexivity.
  - change (savetxt (row :: row' :: a))
      with (join " " row +:+ linesep +:+ savetxt (row' :: a)).
    rewrite IH by done. cbn [map]. rewrite join_cons.
    by rewrite !string_app_assoc.
Qed.

(** A line of [n] single characters separated by single spaces. *)
Lemma spaced_line_length (row : list ascii) :
  String.length (join " " (map char_str row)) = (2 * length row - 1)%nat.
Proof.
  induction row as [|c row IH]; [done|].
  destruct row as [|c' row]; [done|].
  cbn [map]. rewrite join_cons. cbn [map] in IH.
  rewrite !string_app_length, IH. cbn [String.length char_str length]. lia.
Qed.

Lemma spaced_line_head (row : list ascii) :
  head (list_ascii_of_string (join " " (map char_str row))) = head row.
Proof.
  destruct row as [|c row]; [done|]. cbn [map]. by apply head_join.
Qed.

Lemma spaced_line_last (row : list ascii) :
  last (list_ascii_of_string (join " " (map char_str row))) = last row.
Proof.
  destruct (last row) as [c|] eqn:Hl.
  - apply last_Some in Hl as [init ->]. rewrite map_app. by apply last_join.
  - apply last_None in Hl as ->. done.
Qed.

(** ** The text of a grid *)

Ltac string_norm :=
  repeat progress (cbn; rewrite ?string_app_cons, ?string_app_nil).

Lemma to_symbols_shown (fill value : ascii) (grid : list (list bool)) :
  to_symbols (char_str fill) (char_str value) grid
  = map (map (fun cell => char_str (shown_char fill value cell))) grid.
Proof.
  unfold to_symbols, shown_char, char_str.
  change (String.eqb (String fill "") "0") with (Ascii.eqb fill "0" && true).
  change (String.eqb (String fill "") "1") with (Ascii.eqb fill "1" && true).
  rewrite !andb_true_r.
  destruct (Ascii.eqb_spec fill "1") as [->|H1].
  - cbn [Ascii.eqb Bool.eqb negb andb]. rewrite map_map.
    apply map_ext. intros row. rewrite map_map. apply map_ext.
    intros []; by string_norm.
  - destruct (Ascii.eqb_spec fill "0") as [->|H0]; cbn [negb].
    + rewrite map_map. apply map_ext. intros row. rewrite map_map.
      apply map_ext. intros []; by string_norm.
    + rewrite !map_map. apply map_ext. intros row. rewrite !map_map.
      apply Ascii.eqb_neq in H1, H0.
      apply map_ext. intros []; cbn; rewrite ?string_app_cons, ?string_app_nil; cbn;
        rewrite ?H1, ?H0, ?string_app_cons, ?string_app_nil; done.
Qed.

Lemma shown_char_printable fill value cell :
  printable fill = true -> printable value = true ->
  printable (shown_char fill value cell) = true.
Proof.
  intros Hf Hv. unfold shown_char.
  destruct (Ascii.eqb fill "1"); [done|]. by destruct cell.
Qed.

Lemma printable_not_LF c : printable c = true -> c <> LF.
Proof. by intros Hc ->. Qed.

(** The text of a grid with at least one row and one column, for printable
    symbols: the lines of the rows, joined by the line separator and followed
    by one more separator. *)
Lemma array_to_text_lines (fill value : ascii) (grid : list (list bool)) :
  printable fill = true -> printable value = true ->
  grid <> [] -> Forall (fun row => row <> []) grid ->
  array_to_text (char_str fill) (char_str value) grid
  = join linesep (map (fun row => join " " (map char_str row))
                      (map (map (shown_char fill value)) grid)) +:+ linesep.
Proof.
  intros Hf Hv Hne Hrows. unfold array_to_text. f_equal.
  rewrite to_symbols_shown, savetxt_join by (by destruct grid).
  rewrite !map_map.
  set (line := fun row : list bool =>
         join " " (map (fun cell => char_str (shown_char fill value cell)) row)).
  assert (Hline : forall row, line row
            = join " " (map char_str (map (shown_char fill value) row))).
  { intros row. unfold line. by rewrite map_map. }
  rewrite <- (map_ext _ _ Hline).
  destruct grid as [|row0 grid]; [done|]. clear Hne.
  apply Forall_cons in Hrows as [Hrow0 Hrows].
  destruct row0 as [|cell0 row0]; [done|].
  destruct (last_is_Some (map line ((cell0 :: row0) :: grid))) as [_ [lastline Hlast]];
    [done|].
  pose proof (last_Some_elem_of _ _ Hlast) as Hin.
  apply last_Some in Hlast as [init Hinit].
  apply list_elem_of_fmap in Hin as (lastrow & -> & Hin).
  assert (Hlastrow : lastrow <> []).
  { apply elem_of_cons in Hin as [->|Hin]; [done|].
    rewrite Forall_forall in Hrows. by apply Hrows. }
  destruct (last_is_Some lastrow) as [_ [lastcell Hlastcell]]; [done|].
  eapply strip_final_linesep.
  - cbn [map]. apply head_join. rewrite Hline, spaced_line_head. done.
  - by apply printable_not_LF, shown_char_printable.
  - rewrite Hinit. apply last_join. rewrite Hline, spaced_line_last.
    rewrite fmap_last, Hlastcell. done.
  - by apply printable_not_LF, shown_char_printable.
Qed.

(** ** The layout of a rendered picture *)

Section RenderLayout.

Variable shape_bounds : value -> result (list Q).
Variable rasterize : rasterize_call -> result (list (list bool)).

(** [rasterize] returns an array of the requested [out_shape]. *)
Hypothesis rasterize_out_shape : forall call grid,
  rasterize call = Ok grid ->
  Z.of_nat (length grid) = fst (rc_out_shape call)
  /\ Forall (fun row => Z.of_nat (length row) = snd (rc_out_shape call)) grid.

Lemma render_call_shape ftrz width fill value all_touched bbox h call h' :
  render_call shape_bounds ftrz width fill value all_touched bbox h = (Ok call, h') ->
  (0 < width)%Z /\ snd (rc_out_shape call) = width /\ fst (rc_out_shape call) <> 0%Z.
Proof.
  unfold render_call.
  destruct (negb (String.length fill =? 1)%nat); [done|].
  destruct (negb (String.length value =? 1)%nat); [done|].
  destruct (Z.leb_spec width 0) as [|Hw]; [done|].
  rewrite M_bind_unfold.
  match goal with
  | |- context [match ?m h with _ => _ end] =>
      destruct (m h) as [[[[[[x_min y_min] x_max] y_max] ftrz']|e] h1]; [|done]
  end.
  rewrite M_bind_unfold. unfold lift.
  destruct (py_div _ _) as [rows|e]; [|done].
  rewrite M_bind_unfold.
  destruct (for_geometries Ok ftrz' h1) as [[shapes|e] h2]; [|done].
  unfold mret, M_ret. intros [= <- <-]. cbn [rc_out_shape fst snd].
  split; [done|]. split; [done|].
  destruct (Z.eqb_spec (py_int rows) 0); [done|done].
Qed.


End RenderLayout.

Lemma rasterize_vertices_out_shape call grid :
  rasterize_vertices call = Ok grid ->
  Z.of_nat (length grid) = fst (rc_out_shape call)
  /\ Forall (fun row => Z.of_nat (length row) = snd (rc_out_shape call)) grid.
Proof.
  unfold rasterize_vertices. destruct (rc_out_shape call) as [height width].
  destruct (Z.ltb_spec height 0) as [|Hh]; [done|].
  destruct (Z.ltb_spec width 0) as [|Hw]; [done|].
  cbn [orb fst snd]. intros [= <-]. split.
  - rewrite length_map, length_seq. lia.
  - apply Forall_fmap, Forall_forall. intros r _. cbn.
    rewrite length_map, length_seq. lia.
Qed.


(** ** Reading a rendered picture back *)

Lemma splitlines_line (line rest : string) :
  no_linebreak line ->
  splitlines (line +:+ linesep +:+ rest) = line :: splitlines rest.
Proof.
  unfold no_linebreak. induction line as [|c line IH]; intros Hclean.
  - change ("" +:+ linesep +:+ rest) with (String LF rest).
    cbn [splitlines]. change (is_linebreak LF) with true. by destruct rest.
  - cbn [list_ascii_of_string] in Hclean. apply Forall_cons in Hclean as [Hc Hclean].
    rewrite string_app_cons. cbn [splitlines]. rewrite Hc, IH by done. done.
Qed.

Lemma splitlines_join (lines : list string) :
  lines <> [] -> Forall no_linebreak lines ->
  splitlines (join linesep lines +:+ linesep) = lines.
Proof.
  induction lines as [|line lines IH]; [done|]. intros _ Hclean.
  apply Forall_cons in Hclean as [Hline Hclean].
  destruct lines as [|line' lines].
  - change (join linesep [line] +:+ linesep) with (line +:+ linesep +:+ "").
    by rewrite splitlines_line.
  - rewrite join_cons, !string_app_assoc, splitlines_line by done.
    by rewrite IH.
Qed.

Lemma every_other_spaced (row : list ascii) :
  every_other (list_ascii_of_string (join " " (map char_str row))) = row.
Proof.
  induction row as [|c row IH]; [done|].
  destruct row as [|c' row]; [done|].
  cbn [map] in *. rewrite join_cons.
  change (char_str c +:+ " " +:+ join " " (char_str c' :: map char_str row))
    with (String c (String " " (join " " (char_str c' :: map char_str row)))).
  cbn [list_ascii_of_string every_other]. by rewrite IH.
Qed.

Lemma spaced_line_no_linebreak (row : list ascii) :
  Forall (fun c => printable c = true) row ->
  no_linebreak (join " " (map char_str row)).
Proof.
  unfold no_linebreak. induction 1 as [|c row Hc Hrow IH]; [constructor|].
  assert (Hlb : forall a, printable a = true -> is_linebreak a = false).
  { intros a Ha. unfold printable, is_linebreak in *.
    destruct (nat_of_ascii a) as [|n]; [done|]. cbv zeta in *.
    repeat match goal with
           | |- context [(?x <=? ?y)%nat] => destruct (Nat.leb_spec x y)
           | |- context [(?x =? ?y)%nat] => destruct (Nat.eqb_spec x y)
           | H : context [(?x <=? ?y)%nat] |- _ => destruct (Nat.leb_spec x y)
           | H : context [(?x <? ?y)%nat] |- _ => destruct (Nat.ltb_spec x y)
           end; cbn in *; try done; lia. }
  destruct row as [|c' row].
  - cbn. constructor; [by apply Hlb|constructor].
  - cbn [map] in *. rewrite join_cons.
    change (char_str c +:+ " " +:+ join " " (char_str c' :: map char_str row))
      with (String c (String " " (join " " (char_str c' :: map char_str row)))).
    cbn [list_ascii_of_string]. constructor; [by apply Hlb|]. by constructor.
Qed.

Lemma composite_pixel_single fill (cell : bool) :
  composite_pixel (char_str fill) [shown_char " " "+" cell]
  = char_str (if cell then "+"%char else fill).
Proof. by destruct cell. Qed.

(** Stacking a single layer rendered with the default symbols, under a new
    printable fill other than ['1'], gives the picture rendered with that
    fill directly. *)
Lemma stack_single_rendered_layer (fill : ascii) (grid : list (list bool)) :
  printable fill = true -> fill <> "1"%char ->
  grid <> [] -> Forall (fun row => row <> []) grid ->
  stack [array_to_text " " "+" grid] (char_str fill)
  = Ok (array_to_text (char_str fill) "+" grid).
Proof.
  intros Hf H1 Hne Hrows.
  change " " with (char_str " ") at 1. change "+" with (char_str "+").
  rewrite !array_to_text_lines by done.
  unfold stack. cbn [String.length char_str Nat.eqb negb map].
  rewrite splitlines_join.
  - cbn [zip_star]. rewrite stack_rows_uniform.
    + cbn [mbind result_bind rbind]. do 3 f_equal.
      rewrite !map_map. apply map_ext. intros row. cbn [map zip_star].
      rewrite every_other_spaced, !map_map. f_equal. apply map_ext. intros cell.
      rewrite composite_pixel_single. unfold shown_char.
      apply Ascii.eqb_neq in H1 as ->. done.
    + apply Forall_fmap, Forall_forall. intros line _. cbn.
      split; [done|]. exists (String.length line). by constructor.
  - by destruct grid.
  - apply Forall_fmap, Forall_fmap, Forall_forall. intros row _. cbn.
    apply spaced_line_no_linebreak, Forall_fmap, Forall_forall. intros cell _.
    by destruct cell.
Qed.

(** ** Flat bounding rectangles *)

Lemma py_int_zero_extent (y c : Q) : py_int ((y - y) / c) = 0%Z.
Proof.
  unfold py_int. replace (Qnum ((y - y) / c)) with 0%Z; [done|].
  destruct y as [yn yd], c as [cn cd]. cbn. lia.
Qed.

Lemma cell_size_nonzero (x0 x1 : Q) (width : Z) :
  (x0 < x1)%Q -> (0 < width)%Z -> Qeq_bool ((x1 - x0) / inject_Z width) 0 = false.
Proof.
  intros Hx Hw. destruct (Qeq_bool _ 0) eqn:E; [|done].
  apply Qeq_bool_iff in E.
  assert (Hpos : (0 < (x1 - x0) / inject_Z width)%Q).
  { apply Qlt_shift_div_l.
    - change 0%Q with (inject_Z 0). by rewrite <- Zlt_Qlt.
    - rewrite Qmult_0_l. by apply (proj1 (Qlt_minus_iff x0 x1)). }
  rewrite E in Hpos. by apply Qlt_irrefl in Hpos.
Qed.

(** A rectangle without vertical extent (and with horizontal extent) gives a
    grid of one row: the computed height 0 is replaced by 1. *)
Lemma render_call_flat_extent (shape_bounds : value -> result (list Q))
    ftrz width fill value all_touched (x0 x1 y : Q) h :
  String.length fill = 1%nat -> String.length value = 1%nat ->
  (0 < width)%Z -> (x0 < x1)%Q ->
  fst (render_call shape_bounds ftrz width fill value all_touched (Some (x0, y, x1, y)) h)
  = (fun shapes =>
       RasterizeCall shapes (1%Z, width)
         (FromGdal x0 ((x1 - x0) / inject_Z width) 0 y 0 (- ((x1 - x0) / inject_Z width)))
         all_touched) <$> fst (for_geometries Ok ftrz h).
Proof.
  intros Hf Hv Hw Hx. unfold render_call. rewrite Hf, Hv. cbn [Nat.eqb negb].
  destruct (Z.leb_spec width 0) as [|_]; [lia|].
  rewrite M_bind_unfold. unfold mret at 1, M_ret at 1.
  rewrite M_bind_unfold. unfold lift, py_div.
  rewrite cell_size_nonzero by done.
  rewrite M_bind_unfold, py_int_zero_extent.
  by destruct (for_geometries Ok ftrz h) as [[shapes|e] h1].
Qed.

(** ** Recognised elements *)

Lemma extract_geometry_interface (d : gmap string value) :
  extract_geometry (VGeo (VDict d)) = extract_geometry (VDict d).
Proof. reflexivity. Qed.

Lemma extract_geometry_feature (d : gmap string value) g :
  d !! "type" = Some (VStr "Feature") -> d !! "geometry" = Some g ->
  extract_geometry (VDict d) = Ok g.
Proof. intros Ht Hg. unfold extract_geometry. by rewrite Ht, Hg. Qed.

Lemma extract_geometry_coordinates (d : gmap string value) ty c :
  d !! "type" = Some ty -> is_feature_tag ty = false ->
  d !! "coordinates" = Some c ->
  extract_geometry (VDict d) = Ok (VDict d).
Proof. intros Ht Hty Hc. unfold extract_geometry. by rewrite Ht, Hty, Hc. Qed.

Lemma extract_geometry_unrecognised (d : gmap string value) ty :
  d !! "type" = Some ty -> is_feature_tag ty = false ->
  d !! "coordinates" = None ->
  extract_geometry (VDict d) = Raise TypeError.
Proof. intros Ht Hty Hc. unfold extract_geometry. by rewrite Ht, Hty, Hc. Qed.

Lemma extract_geometry_untyped (d : gmap string value) :
  d !! "type" = None -> extract_geometry (VDict d) = Raise KeyError.
Proof. intros Ht. unfold extract_geometry. by rewrite Ht. Qed.

(** ** Worked examples *)

(** The normaliser unwraps a feature and an object with [__geo_interface__]
    and passes a bare geometry through. *)
Example normalise_mixed_elements :
  fst (for_geometries Ok
         (VList [feature (point 1 2); VGeo (point 1 2); point 1 2]) empty_heap)
  = Ok [point 1 2; point 1 2; point 1 2].
Proof. vm_compute. reflexivity. Qed.

(** The example of the docstring of [stack]. *)
Example stack_docstring_example :
  stack [star_layer; plus_layer] "."
  = Ok (nl "+ * * * +" +:+ nl ". . * . ." +:+ nl "+ * * * +").
Proof. reflexivity. Qed.

(** Two layers with dots as their own background: a dot is opaque, so the
    upper layer hides the lower one everywhere. *)
Example stack_dotted_layers :
  stack [nl "+ ." +:+ nl ". +"; nl ". +" +:+ nl "+ ."] "."
  = Ok (nl ". +" +:+ nl "+ .").
Proof. reflexivity. Qed.

(** A grid that is covered everywhere, three columns wide. *)
Example full_grid_text :
  array_to_text "." "*" (replicate 3 (replicate 3 true))
  = nl "* * *" +:+ nl "* * *" +:+ nl "* * *".
Proof. reflexivity. Qed.

(** A generator is rendered like the list of its items, and is exhausted
    afterwards. *)
Example render_generator_run :
  render coordinate_bounds rasterize_vertices (VGen 0) 2 "." "+" false None
         (Heap [Items [corner_points]] [])
  = (Ok (nl "+ ." +:+ nl ". ."),
     Heap [Items []; TeeCursor 0 1; TeeCursor 0 1] [TeeCell 0 [corner_points]]).
Proof. vm_compute. reflexivity. Qed.

(** * Further properties *)

(** ** Rows of unequal length *)

Lemma stack_row_error fill row_stack e :
  stack_row fill row_stack = Raise e -> e = ValueError.
Proof.
  unfold stack_row. destruct (negb _); [|done]. by intros [= <-].
Qed.

Lemma stack_rows_raise fill (row_stacks : list (list string)) :
  Exists (fun rs => stack_row fill rs = Raise ValueError) row_stacks ->
  stack_rows fill row_stacks = Raise ValueError.
Proof.
  induction row_stacks as [|rs rest IH]; intros Hex; [by apply Exists_nil in Hex|].
  cbn [stack_rows].
  destruct (stack_row fill rs) as [o_row|e] eqn:Hrow.
  - apply Exists_cons in Hex as [Hhd|Htl]; [congruence|].
    cbn. by rewrite IH.
  - apply stack_row_error in Hrow as ->. done.
Qed.

Lemma remove_dups_two (l : list nat) x y :
  x ∈ l -> y ∈ l -> x <> y -> length (remove_dups l) <> 1%nat.
Proof.
  intros Hx Hy Hne Hlen.
  apply elem_of_remove_dups in Hx, Hy.
  destruct (remove_dups l) as [|z [|z' l']]; try done.
  apply list_elem_of_singleton in Hx, Hy. congruence.
Qed.

(** X1.  When every layer has a line [i] and two layers disagree on its length,
    [stack] raises a [ValueError]. *)
Theorem stack_uneven_rows_raise (layers : list string) (fill : string) i k1 k2
    layer1 layer2 line1 line2 :
  String.length fill = 1%nat ->
  Forall (fun layer => (i < length (splitlines layer))%nat) layers ->
  layers !! k1 = Some layer1 -> layers !! k2 = Some layer2 ->
  splitlines layer1 !! i = Some line1 -> splitlines layer2 !! i = Some line2 ->
  String.length line1 <> String.length line2 ->
  stack layers fill = Raise ValueError.
Proof.
  intros Hfill Hall Hk1 Hk2 Hl1 Hl2 Hne.
  unfold stack. rewrite Hfill. cbn [Nat.eqb negb].
  rewrite stack_rows_raise; [done|].
  assert (Hrows : is_Some (zip_star (map splitlines layers) !! i)).
  { rewrite zip_star_lookup by (by destruct layers).
    apply mapM_is_Some, Forall_fmap. eapply Forall_impl; [exact Hall|].
    intros layer Hi. by apply lookup_lt_is_Some_2. }
  destruct Hrows as [rs Hrs].
  apply Exists_exists. exists rs. split; [by eapply list_elem_of_lookup_2|].
  rewrite zip_star_lookup in Hrs by (by destruct layers).
  apply mapM_Some in Hrs. rewrite Forall2_fmap_l in Hrs.
  destruct (Forall2_lookup_l _ _ _ _ _ Hrs Hk1) as (r1 & Hr1 & Hs1).
  destruct (Forall2_lookup_l _ _ _ _ _ Hrs Hk2) as (r2 & Hr2 & Hs2).
  unfold compose in Hs1, Hs2.
  assert (r1 = line1) as -> by congruence. assert (r2 = line2) as -> by congruence.
  unfold stack_row.
  destruct (Nat.eqb_spec (length (remove_dups (map String.length rs))) 1) as [Hone|]; [|done].
  exfalso. revert Hone.
  apply (remove_dups_two _ (String.length line1) (String.length line2)); [| |done].
  - apply list_elem_of_fmap. exists line1. split; [done|]. by eapply list_elem_of_lookup_2.
  - apply list_elem_of_fmap. exists line2. split; [done|]. by eapply list_elem_of_lookup_2.
Qed.

(** ** The number of lines of a stacked picture *)




(** ** The character of every cell *)

(** X5.  For one-character symbols, the cell at row [i] and column [j] of the
    converted array shows ['1'] when the fill is ['1'], and otherwise the
    value for a covered cell and the fill for an uncovered one. *)
Theorem to_symbols_cell (fill value : ascii) (grid : list (list bool))
    (i j : nat) (cell : bool) :
  grid !! i ≫= (fun row : list bool => row !! j) = Some cell ->
  to_symbols (char_str fill) (char_str value) grid !! i
    ≫= (fun row : list string => row !! j)
  = Some (char_str (if Ascii.eqb fill "1" then "1"%char
                    else if cell then value else fill)).
Proof.
  intros Hcell. rewrite to_symbols_shown, list_lookup_fmap.
  destruct (grid !! i) as [row|]; [|done]. cbn in *.
  rewrite list_lookup_fmap, Hcell. done.
Qed.

Section RenderMore.

Variable shape_bounds : value -> result (list Q).
Variable rasterize : rasterize_call -> result (list (list bool)).

Lemma render_fst_of_call ftrz1 ftrz2 width fill value all_touched bbox h1 h2 :
  fst (render_call shape_bounds ftrz1 width fill value all_touched bbox h1)
    = fst (render_call shape_bounds ftrz2 width fill value all_touched bbox h2) ->
  fst (render shape_bounds rasterize ftrz1 width fill value all_touched bbox h1)
    = fst (render shape_bounds rasterize ftrz2 width fill value all_touched bbox h2).
Proof.
  intros Hc. unfold render. rewrite !M_bind_unfold.
  destruct (render_call shape_bounds ftrz1 _ _ _ _ _ h1) as [[c1|e1] h1'],
           (render_call shape_bounds ftrz2 _ _ _ _ _ h2) as [[c2|e2] h2'];
    cbn [fst] in Hc; simplify_eq; [|done].
  rewrite !M_bind_unfold. unfold lift. by destruct (rasterize c2).
Qed.

(** ** One-shot sources with an explicit bounding box *)

Lemma render_call_bbox_items ftrz1 ftrz2 h1 h2 width fill value all_touched b :
  source_items ftrz1 h1 = source_items ftrz2 h2 ->
  fst (render_call shape_bounds ftrz1 width fill value all_touched (Some b) h1)
  = fst (render_call shape_bounds ftrz2 width fill value all_touched (Some b) h2).
Proof.
  intros Hsrc. unfold render_call.
  destruct (negb (String.length fill =? 1)%nat); [done|].
  destruct (negb (String.length value =? 1)%nat); [done|].
  destruct (width <=? 0)%Z; [done|].
  rewrite !M_bind_unfold. unfold mret at 1 3, M_ret at 1 3.
  by apply (render_call_tail_fst width all_touched b).
Qed.

(** X8.  With an explicit [bbox] nothing is read twice: a generator or any other
    one-shot iterator is rendered like the list of its items. *)
Theorem render_bbox_one_shot it items h width fill value all_touched b :
  iters h !! it = Some (Items items) ->
  fst (render shape_bounds rasterize (VGen it) width fill value all_touched (Some b) h)
    = fst (render shape_bounds rasterize (VList items) width fill value all_touched (Some b) h)
  /\ fst (render shape_bounds rasterize (VIter it) width fill value all_touched (Some b) h)
    = fst (render shape_bounds rasterize (VList items) width fill value all_touched (Some b) h).
Proof.
  intros Hit.
  assert (Hp : pending_items it h = items) by (unfold pending_items; by rewrite Hit).
  split; apply render_fst_of_call, render_call_bbox_items; cbn [source_items];
    by rewrite Hp.
Qed.

(** ** Plain iterators without a bounding box *)

Lemma run_loop_ok_count {A} (body : value -> result A) items r :
  fst (run_loop body items) = Ok r -> snd (run_loop body items) = length items.
Proof.
  revert r. induction items as [|obj rest IH]; intros r; [done|]. cbn.
  destruct (body obj) as [a|e]; [|done].
  destruct (run_loop body rest) as [[r'|e] k]; [|done]. cbn in *.
  intros _. f_equal. by eapply IH.
Qed.

Lemma for_geometries_exhausts {A} (body : value -> result A) it h r h' :
  for_geometries body (VIter it) h = (Ok r, h') -> pending_items it h' = [].
Proof.
  unfold for_geometries. cbn [source_items consume].
  destruct (run_loop _ (pending_items it h)) as [r' k] eqn:Hloop.
  intros [= -> <-].
  pose proof (run_loop_ok_count (fun obj => extract_geometry obj ≫= body)
                (pending_items it h) r) as Hk.
  rewrite Hloop in Hk. cbn in Hk. rewrite Hk by done.
  rewrite pending_items_advance. by rewrite drop_all.
Qed.

(** X9.  An iterator that is not a generator object is used up by bounds
    inference: whenever [render] gets as far as calling [rasterize] for such
    a source without [bbox], it hands it no geometry at all. *)
Theorem render_call_iterator_starved it width fill value all_touched h call h' :
  render_call shape_bounds (VIter it) width fill value all_touched None h = (Ok call, h') ->
  rc_shapes call = [].
Proof.
  unfold render_call.
  destruct (negb (String.length fill =? 1)%nat); [done|].
  destruct (negb (String.length value =? 1)%nat); [done|].
  destruct (width <=? 0)%Z; [done|].
  rewrite M_bind_unfold. unfold infer_bounds. rewrite M_bind_unfold.
  destruct (for_geometries shape_bounds (VIter it) h) as [[bounds|e] h1] eqn:Hfor; [|done].
  apply for_geometries_exhausts in Hfor.
  repeat (rewrite M_bind_unfold; unfold lift;
          match goal with
          | |- context [match ?r with Ok _ => _ | Raise _ => _ end] =>
              destruct r; [|done]
          end).
  unfold mret at 1, M_ret at 1.
  rewrite M_bind_unfold. unfold lift.
  destruct (py_div _ _) as [rows|e]; [|done].
  rewrite M_bind_unfold. unfold for_geometries. cbn [source_items].
  rewrite Hfor. cbn. by intros [= <- <-].
Qed.

End RenderMore.

Section RenderDims.

Variable shape_bounds : value -> result (list Q).
Variable rasterize : rasterize_call -> result (list (list bool)).

(** ** Rectangles without width *)

Lemma cell_size_zero (x : Q) (width : Z) :
  Qeq_bool ((x - x) / inject_Z width) 0 = true.
Proof.
  apply Qeq_bool_iff. unfold Qdiv.
  transitivity (0 * / inject_Z width)%Q; [|apply Qmult_0_l].
  apply Qmult_comp; [apply Qplus_opp_r|reflexivity].
Qed.

(** X7.  For valid symbols and width, an explicit [bbox] with [x_min = x_max]
    makes [render] raise [ZeroDivisionError], whatever its vertical extent
    and whatever the source, from which nothing is taken. *)
Theorem render_zero_width_raises ftrz width fill value all_touched (x y0 y1 : Q) h :
  String.length fill = 1%nat -> String.length value = 1%nat -> (0 < width)%Z ->
  render shape_bounds rasterize ftrz width fill value all_touched
         (Some (x, y0, x, y1)) h = (Raise ZeroDivisionError, h).
Proof.
  intros Hf Hv Hw. unfold render, render_call. rewrite Hf, Hv. cbn [Nat.eqb negb].
  destruct (Z.leb_spec width 0) as [|_]; [lia|].
  rewrite !M_bind_unfold. unfold mret at 1, M_ret at 1.
  rewrite M_bind_unfold. unfold lift, py_div. by rewrite cell_size_zero.
Qed.

(** ** The number of rows *)




(** ** Single-layer stacking, end to end *)

Hypothesis rasterize_out_shape : forall call grid,
  rasterize call = Ok grid ->
  Z.of_nat (length grid) = fst (rc_out_shape call)
  /\ Forall (fun row => Z.of_nat (length row) = snd (rc_out_shape call)) grid.

Lemma render_call_symbols ftrz width fill1 value1 fill2 value2 all_touched bbox :
  String.length fill1 = 1%nat -> String.length value1 = 1%nat ->
  String.length fill2 = 1%nat -> String.length value2 = 1%nat ->
  render_call shape_bounds ftrz width fill1 value1 all_touched bbox
  = render_call shape_bounds ftrz width fill2 value2 all_touched bbox.
Proof. intros H1 H2 H3 H4. unfold render_call. by rewrite H1, H2, H3, H4. Qed.

(** X4.  Whenever [render] with the default symbols returns a layer, stacking that
    single layer under a printable fill other than ['1'] gives exactly what
    [render] returns for the same arguments with that fill. *)
Theorem stack_single_layer_is_rerender ftrz width (fill : ascii) all_touched bbox
    h layer h' :
  printable fill = true -> fill <> "1"%char ->
  render shape_bounds rasterize ftrz width " " "+" all_touched bbox h = (Ok layer, h') ->
  render shape_bounds rasterize ftrz width (char_str fill) "+" all_touched bbox h
    = (stack [layer] (char_str fill), h').
Proof.
  intros Hf H1. unfold render.
  rewrite (render_call_symbols ftrz width (char_str fill) "+" " " "+") by done.
  rewrite !M_bind_unfold.
  destruct (render_call _ _ _ _ _ _ _ h) as [[call|e] h1] eqn:Hcall; [|done].
  pose proof (render_call_shape _ _ _ _ _ _ _ _ _ _ Hcall) as (Hw & Hcols & Hrows).
  rewrite !M_bind_unfold. unfold lift.
  destruct (rasterize call) as [grid|e] eqn:Hgrid; [|done].
  unfold mret, M_ret. intros [= <- <-].
  apply rasterize_out_shape in Hgrid as [Hheight Hwidth]. rewrite Hcols in Hwidth.
  rewrite stack_single_rendered_layer; [done|done|done| |].
  - intros ->. by rewrite <- Hheight in Hrows.
  - eapply Forall_impl; [exact Hwidth|]. intros row Hrow ->. cbn in Hrow. lia.
Qed.

End RenderDims.

(** ** The normaliser stops at the first bad element *)

Lemma run_loop_stops {A} (body : value -> result A) good bad rest e :
  Forall (fun obj => exists a, body obj = Ok a) good -> body bad = Raise e ->
  run_loop body (good ++ bad :: rest) = (Raise e, S (length good)).
Proof.
  intros Hgood Hbad. induction Hgood as [|obj good [a Ha] _ IH]; cbn.
  - by rewrite Hbad.
  - by rewrite Ha, IH.
Qed.

(** X10.  When an iterator holds well-formed elements followed by one from which
    no geometry can be extracted, extraction raises the error of that element
    and leaves the elements after it in the iterator. *)
Theorem extractor_stops_at_bad_element it h good bad rest e :
  pending_items it h = good ++ bad :: rest ->
  Forall (fun obj => exists g, extract_geometry obj = Ok g) good ->
  extract_geometry bad = Raise e ->
  fst (for_geometries Ok (VIter it) h) = Raise e
  /\ pending_items it (snd (for_geometries Ok (VIter it) h)) = rest.
Proof.
  intros Hp Hgood Hbad. unfold for_geometries. cbn [source_items consume].
  rewrite Hp, (run_loop_stops _ good bad rest e).
  - cbn [fst snd]. split; [done|].
    rewrite pending_items_advance, Hp.
    replace (S (length good)) with (length good + 1)%nat by lia.
    by rewrite <- drop_drop, drop_app_length.
  - eapply Forall_impl; [exact Hgood|]. intros obj [g Hg]. exists g.
    cbn beta. by rewrite Hg.
  - cbn beta. by rewrite Hbad.
Qed.

(** ** Ordered dictionaries *)

Lemma ordered_set_new {V} (k : string) (v : V) (d : list (string * V)) :
  k ∉ map fst d -> ordered_set k v d = d ++ [(k, v)].
Proof.
  induction d as [|[k' v'] d IH]; intros Hk; [done|]. cbn [ordered_set].
  destruct (String.eqb_spec k' k) as [->|Hne].
  - destruct Hk. cbn. left.
  - cbn. f_equal. apply IH. intros Hin. apply Hk. cbn. by right.
Qed.

Lemma ordered_dict_from {V} (pairs acc : list (string * V)) :
  NoDup (map fst (acc ++ pairs)) ->
  fold_left (fun d kv => ordered_set (fst kv) (snd kv) d) pairs acc = acc ++ pairs.
Proof.
  revert acc. induction pairs as [|[k v] pairs IH]; intros acc Hnd; cbn [fold_left].
  - by rewrite app_nil_r.
  - cbn [fst snd]. rewrite ordered_set_new.
    + rewrite IH; rewrite <- app_assoc; done.
    + rewrite map_app in Hnd. apply NoDup_app in Hnd as (_ & Hdisj & _).
      intros Hin. apply (Hdisj k Hin). cbn. left.
Qed.

(** A list of items with distinct keys is its own ordered dictionary. *)
Lemma ordered_dict_distinct {V} (pairs : list (string * V)) :
  NoDup (map fst pairs) -> ordered_dict pairs = pairs.
Proof. intros Hnd. unfold ordered_dict. by rewrite ordered_dict_from. Qed.



(** ** Widths *)

Lemma fold_left_max (xs : list nat) (a : nat) :
  fold_left Nat.max xs a = Nat.max a (max_list xs).
Proof.
  revert a. induction xs as [|x xs IH]; intros a; cbn; [lia|].
  rewrite IH. lia.
Qed.

Lemma py_max_nat_nonempty (l : list nat) :
  l <> [] -> py_max_nat l = Ok (max_list l).
Proof.
  destruct l as [|x xs]; [done|]. intros _. cbn. by rewrite fold_left_max.
Qed.

Lemma repeat_char_length c n : String.length (repeat_char c n) = n.
Proof. induction n as [|n IH]; [done|]. cbn. by rewrite IH. Qed.

(** ** Lines that can be read back *)

Lemma no_linebreak_app (a b : string) :
  no_linebreak (a +:+ b) <-> no_linebreak a /\ no_linebreak b.
Proof. unfold no_linebreak. rewrite list_ascii_app. apply Forall_app. Qed.

Lemma no_linebreak_repeat c n :
  is_linebreak c = false -> no_linebreak (repeat_char c n).
Proof.
  intros Hc. unfold no_linebreak. induction n as [|n IH]; cbn; by constructor.
Qed.

Lemma splitlines_single (line : string) :
  no_linebreak line -> line <> "" -> splitlines line = [line].
Proof.
  unfold no_linebreak. induction line as [|c line IH]; [done|]. intros Hclean _.
  cbn [list_ascii_of_string] in Hclean. apply Forall_cons in Hclean as [Hc Hclean].
  cbn [splitlines]. rewrite Hc.
  destruct line as [|c' line]; [done|]. by rewrite IH.
Qed.

Lemma splitlines_join_open (lines : list string) (final : string) :
  Forall no_linebreak lines -> no_linebreak final -> final <> "" ->
  splitlines (join linesep (lines ++ [final])) = lines ++ [final].
Proof.
  intros Hlines Hfinal Hne. induction Hlines as [|line lines Hline _ IH].
  - by apply splitlines_single.
  - cbn [app]. destruct (lines ++ [final]) as [|q rest] eqn:Hrest.
    + by destruct lines.
    + rewrite join_cons, splitlines_line by done. by rewrite IH.
Qed.

Section TableFacts.

Variable text_type : value -> string.


(** X12.  The lines of the table of a non-empty dictionary (with distinct keys, as
    every dictionary has): a divider, one row per item in the order of the
    dictionary, and the same divider again, every line as long as the widest
    key plus the widest value text plus seven characters of frame.  The text
    returned is these lines joined by the line separator, with no separator
    at the end; when no key and no value text contains a line boundary,
    splitting the text into lines gives these lines back. *)
Theorem dict2table_layout (dictionary : list (string * value)) :
  dictionary <> [] -> NoDup (map fst dictionary) ->
  let prop_width := max_list (map (fun kv => String.length (fst kv)) dictionary) in
  let value_width :=
    max_list (map (fun kv => String.length (text_type (snd kv))) dictionary) in
  let divider :=
    "+" +:+ repeat_char "-" (prop_width + 2) +:+ "+"
        +:+ repeat_char "-" (value_width + 2) +:+ "+" in
  let row := fun kv : string * value =>
    "| " +:+ fst kv +:+ repeat_char " " (prop_width - String.length (fst kv))
         +:+ " | "
         +:+ repeat_char " " (value_width - String.length (text_type (snd kv)))
         +:+ text_type (snd kv) +:+ " |" in
  let lines := [divider] ++ map row dictionary ++ [divider] in
  dict2table text_type dictionary = Ok (join linesep lines)
  /\ length lines = (length dictionary + 2)%nat
  /\ Forall (fun line => String.length line = (prop_width + value_width + 7)%nat) lines
  /\ (Forall (fun kv => no_linebreak (fst kv) /\ no_linebreak (text_type (snd kv)))
             dictionary ->
      splitlines (join linesep lines) = lines).
Proof.
  intros Hne Hnd prop_width value_width divider row lines.
  split; [|split; [|split]].
  - subst lines row divider prop_width value_width.
    unfold dict2table, dict2table_lines.
    destruct dictionary as [|kv0 d0] eqn:Hd; [done|]. rewrite <- Hd in *.
    rewrite ordered_dict_distinct by (by rewrite map_map).
    rewrite !map_map. cbn [fst snd].
    rewrite !py_max_nat_nonempty by (subst; done).
    cbn [mbind result_bind rbind fmap result_fmap]. do 2 f_equal.
    f_equal. f_equal.
    rewrite map_map. apply map_ext. intros [k v]. cbn [fst snd].
    by rewrite !string_app_assoc.
  - unfold lines. rewrite !length_app, length_map. cbn. lia.
  - assert (Hdiv : String.length divider = (prop_width + value_width + 7)%nat).
    { unfold divider. rewrite !string_app_length, !repeat_char_length. cbn. lia. }
    unfold lines. apply Forall_app. split; [by constructor|].
    apply Forall_app. split; [|by constructor].
    apply Forall_fmap, Forall_forall. intros [k v] Hin. unfold compose, row. cbn [fst snd].
    assert (Hk : (String.length k <= prop_width)%nat).
    { apply max_list_elem_of_le, list_elem_of_fmap. by exists (k, v). }
    assert (Hv : (String.length (text_type v) <= value_width)%nat).
    { apply max_list_elem_of_le, list_elem_of_fmap. by exists (k, v). }
    rewrite !string_app_length, !repeat_char_length. cbn. lia.
  - intros Hclean.
    assert (Hdiv : no_linebreak divider).
    { unfold divider. repeat (apply no_linebreak_app; split);
        try (by apply no_linebreak_repeat); by repeat constructor. }
    unfold lines. rewrite app_assoc. apply splitlines_join_open; [|done|done].
    apply Forall_app. split; [by constructor|].
    apply Forall_fmap, Forall_forall. intros [k v] Hin.
    rewrite Forall_forall in Hclean. destruct (Hclean _ Hin) as [Hk Hv].
    unfold compose, row. cbn [fst snd] in *.
    repeat (apply no_linebreak_app; split);
      try (by apply no_linebreak_repeat); try done; by repeat constructor.
Qed.

End TableFacts.

Section PaginateFacts.

Variable text_type : value -> string.
Variable shape_bounds : value -> result (list Q).
Variable rasterize : rasterize_call -> result (list (list bool)).

Lemma for_geometries_plain {A} (body : value -> result A) item h :
  plain item ->
  for_geometries body item h = (fst (for_geometries body item empty_heap), h).
Proof.
  intros Hp. unfold for_geometries.
  destruct item; try done; cbn [source_items consume];
    try (by destruct (run_loop _ _)).
Qed.

Lemma infer_bounds_plain item h :
  plain item ->
  infer_bounds shape_bounds item h
  = (fst (infer_bounds shape_bounds item empty_heap), h).
Proof.
  intros Hp. unfold infer_bounds.
  assert (Hsame : forall h', (let '(coord_ftrz, ftrz, h0) :=
              match item with
              | VGen g => tee g h'
              | _ => (item, item, h')
              end in (coord_ftrz, ftrz, h0)) = (item, item, h')).
  { intros h'. by destruct item. }
  destruct item; try done;
    rewrite !M_bind_unfold, (for_geometries_plain shape_bounds _ h) by done;
    destruct (for_geometries shape_bounds _ empty_heap) as [[bounds|e] h1];
    cbn [fst]; try done;
    repeat (rewrite !M_bind_unfold; unfold lift;
            match goal with
            | |- context [match ?r with Ok _ => _ | Raise _ => _ end] =>
                destruct r; [|done]
            end); done.
Qed.

Lemma render_call_plain item width fill value all_touched bbox h :
  plain item ->
  render_call shape_bounds item width fill value all_touched bbox h
  = (fst (render_call shape_bounds item width fill value all_touched bbox empty_heap), h).
Proof.
  intros Hp. unfold render_call.
  destruct (negb (String.length fill =? 1)%nat); [done|].
  destruct (negb (String.length value =? 1)%nat); [done|].
  destruct (width <=? 0)%Z; [done|].
  rewrite !M_bind_unfold.
  assert (Hb : exists r item',
            (forall h', match bbox with
                        | Some b => mret (b, item)
                        | None => infer_bounds shape_bounds item
                        end h' = (r, h'))
            /\ match r with Ok (_, item'') => item'' = item' /\ plain item' | Raise _ => True end).
  { destruct bbox as [b|].
    - exists (Ok (b, item)), item. by split.
    - destruct (infer_bounds shape_bounds item empty_heap) as [[[b item']|e] h1] eqn:Hinf.
      + exists (Ok (b, item')), item'. split.
        * intros h'. by rewrite infer_bounds_plain, Hinf.
        * split; [done|].
          unfold infer_bounds in Hinf.
          destruct item; try done;
            repeat (first [ rewrite M_bind_unfold in Hinf
                          | match type of Hinf with
                            | context [match ?m with _ => _ end] => destruct m
                            end ];
                    unfold lift in Hinf; try discriminate);
            unfold mret, M_ret in Hinf; by simplify_eq.
      + exists (Raise e), item. split; [|done].
        intros h'. by rewrite infer_bounds_plain, Hinf. }
  destruct Hb as (r & item' & Hr & Hitem). rewrite !Hr.
  destruct r as [[[[[x_min y_min] x_max] y_max] item'']|e]; [|done].
  destruct Hitem as [-> Hplain].
  rewrite !M_bind_unfold. unfold lift.
  destruct (py_div _ _) as [rows|e]; [|done].
  rewrite !M_bind_unfold, (for_geometries_plain Ok _ h) by done.
  by destruct (for_geometries Ok item' empty_heap) as [[shapes|e] h1].
Qed.

(** Rendering anything but a one-shot iterator neither reads nor changes the
    heap of iterators. *)
Lemma render_plain item width fill value all_touched bbox h :
  plain item ->
  render shape_bounds rasterize item width fill value all_touched bbox h
  = (fst (render shape_bounds rasterize item width fill value all_touched bbox empty_heap), h).
Proof.
  intros Hp. unfold render. rewrite !M_bind_unfold, (render_call_plain _ _ _ _ _ _ h) by done.
  destruct (render_call _ _ _ _ _ _ _ empty_heap) as [[call|e] h1]; [|done].
  cbn [fst]. rewrite !M_bind_unfold. unfold lift. by destruct (rasterize call).
Qed.

Lemma page_plain properties opts item h :
  plain item ->
  page text_type shape_bounds rasterize properties opts item h
  = (fst (page text_type shape_bounds rasterize properties opts item empty_heap), h).
Proof.
  intros Hp. unfold page. rewrite !M_bind_unfold.
  destruct properties as [props|].
  - rewrite !M_bind_unfold. unfold lift.
    destruct (item_table text_type props item) as [table|e]; [|done].
    unfold mret, M_ret. rewrite !M_bind_unfold.
    rewrite (render_plain _ _ _ _ _ _ h) by done.
    by destruct (render _ _ _ _ _ _ _ _ empty_heap) as [[r|e] h1].
  - unfold mret, M_ret. rewrite !M_bind_unfold.
    rewrite (render_plain _ _ _ _ _ _ h) by done.
    by destruct (render _ _ _ _ _ _ _ _ empty_heap) as [[r|e] h1].
Qed.

Lemma paginate_list_plain properties opts items h :
  Forall plain items ->
  paginate_list text_type shape_bounds rasterize properties opts items h
  = (fst (paginate_list text_type shape_bounds rasterize properties opts items empty_heap), h).
Proof.
  induction 1 as [|item items Hitem _ IH]; [done|]. cbn [paginate_list].
  rewrite (page_plain properties opts item h), (page_plain properties opts item empty_heap)
    by done.
  destruct (fst (page _ _ _ properties opts item empty_heap)) as [text|e]; [|done].
  rewrite IH.
  by destruct (paginate_list _ _ _ properties opts items empty_heap) as [r h1].
Qed.

(** ** Pages of a list of items *)

Lemma page_without_properties opts item h :
  page text_type shape_bounds rasterize None opts item h
  = match render shape_bounds rasterize item (opt_width opts) (opt_fill opts)
            (opt_value opts) (opt_all_touched opts) (opt_bbox opts) h with
    | (Ok r, h') => (Ok (r +:+ linesep), h')
    | (Raise e, h') => (Raise e, h')
    end.
Proof. reflexivity. Qed.

(** X13.  Without [properties], when every item renders, [paginate] yields one page
    per item, in order: the rendering of the item followed by one more line
    separator; it ends without an error. *)
Theorem paginate_without_properties opts items renderings h :
  Forall plain items ->
  Forall2 (fun item r =>
             fst (render shape_bounds rasterize item (opt_width opts) (opt_fill opts)
                    (opt_value opts) (opt_all_touched opts) (opt_bbox opts) h) = Ok r)
          items renderings ->
  paginate text_type shape_bounds rasterize (VList items) None opts h
  = (Some (map (fun r => r +:+ linesep) renderings, None), h).
Proof.
  intros Hplain Hall. cbn [paginate].
  rewrite paginate_list_plain by done.
  replace (fst (paginate_list text_type shape_bounds rasterize None opts items empty_heap))
    with (map (fun r => r +:+ linesep) renderings, @None exn); [done|].
  induction Hall as [|item r items rs Hr _ IH]; [done|].
  apply Forall_cons in Hplain as [Hitem Hplain].
  cbn [paginate_list]. rewrite page_without_properties.
  rewrite render_plain in Hr by done. cbn [fst] in Hr.
  rewrite (render_plain _ _ _ _ _ _ empty_heap), Hr by done.
  rewrite paginate_list_plain, <- IH by done. done.
Qed.

(** X14.  [paginate] yields the pages of the items before the first one whose page
    raises, then stops with that error; the items after it are not looked
    at. *)
Theorem paginate_stops_at_first_failure properties opts good texts bad e rest h :
  Forall plain good -> plain bad ->
  Forall2 (fun item text =>
             fst (page text_type shape_bounds rasterize properties opts item h) = Ok text)
          good texts ->
  fst (page text_type shape_bounds rasterize properties opts bad h) = Raise e ->
  paginate text_type shape_bounds rasterize (VList (good ++ bad :: rest)) properties opts h
  = (Some (texts, Some e), h).
Proof.
  intros Hgood Hbad Hall He. cbn [paginate].
  assert (Hrun : paginate_list text_type shape_bounds rasterize properties opts
                   (good ++ bad :: rest) h = ((texts, Some e), h)).
  { induction Hall as [|item text items ts Ht _ IH]; cbn [app paginate_list].
    - rewrite page_plain in He |- * by done. cbn [fst] in He. by rewrite He.
    - apply Forall_cons in Hgood as [Hitem Hgood].
      rewrite page_plain in Ht |- * by done. cbn [fst] in Ht. rewrite Ht.
      by rewrite IH. }
  by rewrite Hrun.
Qed.

(** ** An empty list of properties *)

(** X15.  A list of [properties] that is empty (rather than absent) makes the page
    of the first item raise the [ValueError] of [dict2table] for an empty
    dictionary: nothing is yielded and nothing is rendered. *)
Theorem paginate_empty_properties opts item rest h :
  paginate text_type shape_bounds rasterize (VList (item :: rest)) (Some []) opts h
  = (Some ([], Some ValueError), h).
Proof. reflexivity. Qed.

(** ** Missing properties *)

Lemma item_table_missing (props : list string) item (pd : gmap string value) p :
  getitem item "properties" = Ok (VDict pd) ->
  p ∈ props -> pd !! p = None ->
  item_table text_type props item = Raise KeyError.
Proof.
  intros Hitem Hin Hp. unfold item_table.
  set (f := fun p0 : string => _).
  assert (Hm : mapM f props = Raise KeyError).
  { induction props as [|q props IH]; [by apply elem_of_nil in Hin|].
    change (mapM f (q :: props)) with (y ← f q; k ← mapM f props; mret (y :: k)).
    destruct (f q) as [y|e] eqn:Hq.
    - cbn. apply elem_of_cons in Hin as [->|Hin].
      + unfold f in Hq. rewrite Hitem in Hq. cbn in Hq. by rewrite Hp in Hq.
      + by rewrite IH.
    - unfold f in Hq. rewrite Hitem in Hq. cbn in Hq.
      destruct (pd !! q); [done|]. by injection Hq as <-. }
  by rewrite Hm.
Qed.

(** X16.  When an item has a mapping of properties that lacks one of the requested
    names, its page raises [KeyError], and it does so before the item is
    rendered. *)
Theorem page_missing_property (props : list string) opts item
    (pd : gmap string value) p h :
  getitem item "properties" = Ok (VDict pd) ->
  p ∈ props -> pd !! p = None ->
  page text_type shape_bounds rasterize (Some props) opts item h = (Raise KeyError, h).
Proof.
  intros Hitem Hin Hp. unfold page. rewrite !M_bind_unfold. unfold lift.
  by rewrite (item_table_missing props item pd p).
Qed.

(** ** A single feature given to [paginate] *)

(** X17.  [paginate] iterates over its source itself: given one feature (a
    mapping) instead of a sequence of features, and at least one property, it
    takes a key of the mapping for an item and raises [TypeError] without
    yielding anything. *)
Theorem paginate_single_mapping (d : gmap string value) p props opts h :
  d <> ∅ ->
  paginate text_type shape_bounds rasterize (VDict d) (Some (p :: props)) opts h
  = (Some ([], Some TypeError), h).
Proof.
  intros Hd. cbn [paginate].
  destruct (map_to_list d) as [|[k v] l] eqn:Hl.
  - by apply map_to_list_empty_iff in Hl.
  - reflexivity.
Qed.

(** ** Pages of a one-shot iterator *)

Lemma paginate_iter_as_list properties opts it items : forall fuel h,
  pending_items it h = items -> Forall plain items -> (length items <= fuel)%nat ->
  let r := fst (paginate_list text_type shape_bounds rasterize properties opts
                  items empty_heap) in
  let taken := (length (fst r) + match snd r with Some _ => 1 | None => 0 end)%nat in
  fst (paginate_iter text_type shape_bounds rasterize fuel properties opts it h) = Some r
  /\ pending_items it
       (snd (paginate_iter text_type shape_bounds rasterize fuel properties opts it h))
     = drop taken items.
Proof.
  induction items as [|item items IH]; intros fuel h Hpend Hplain Hfuel.
  - pose proof (next_item_head it h) as Hhd. pose proof (next_item_tail it h) as Htl.
    rewrite Hpend in Hhd, Htl. cbn in Hhd, Htl.
    destruct fuel; cbn [paginate_iter];
      destruct (next_item it h) as [[x|] h1]; cbn in *; try done.
  - apply Forall_cons in Hplain as [Hitem Hplain].
    pose proof (next_item_head it h) as Hhd. pose proof (next_item_tail it h) as Htl.
    rewrite Hpend in Hhd, Htl. cbn [head tail] in Hhd, Htl.
    destruct fuel as [|fuel]; [cbn in Hfuel; lia|].
    cbn [paginate_iter paginate_list].
    destruct (next_item it h) as [[x|] h1]; cbn [fst snd] in Hhd, Htl; [|done].
    injection Hhd as ->.
    rewrite (page_plain properties opts item h1),
            (page_plain properties opts item empty_heap) by done.
    destruct (fst (page _ _ _ properties opts item empty_heap)) as [text|e].
    + destruct (IH fuel h1 Htl Hplain ltac:(cbn in Hfuel; lia)) as [Hr Hrest].
      rewrite paginate_list_plain by done.
      destruct (paginate_iter _ _ _ fuel properties opts it h1) as [r1 h2].
      cbn [fst snd] in *. subst r1.
      destruct (paginate_list _ _ _ properties opts items empty_heap) as [[pages err] h3].
      cbn [fst snd] in *. split; [done|]. by rewrite Hrest.
    + cbn. split; [done|]. by rewrite Htl, drop_0.
Qed.

(** X18.  Over a generator or any other one-shot iterator of features, [paginate]
    yields what it yields over the list of the same items, taking them one at
    a time: when a page raises, the items after it are still in the
    iterator. *)
Theorem paginate_one_shot_as_list properties opts it h :
  Forall plain (pending_items it h) ->
  let r := fst (paginate text_type shape_bounds rasterize
                  (VList (pending_items it h)) properties opts h) in
  let run := paginate text_type shape_bounds rasterize (VIter it) properties opts h in
  paginate text_type shape_bounds rasterize (VGen it) properties opts h = run
  /\ fst run = r
  /\ forall pages err, r = Some (pages, err) ->
       pending_items it (snd run)
       = drop (length pages + match err with Some _ => 1 | None => 0 end)
              (pending_items it h).
Proof.
  intros Hplain. cbn [paginate]. split; [done|].
  destruct (paginate_iter_as_list properties opts it (pending_items it h)
              (length (pending_items it h)) h eq_refl Hplain (le_n _)) as [Hr Hrest].
  rewrite paginate_list_plain by done.
  destruct (paginate_list _ _ _ properties opts (pending_items it h) empty_heap)
    as [[pages err] h1].
  cbn [fst snd] in *. split; [done|].
  intros pages' err' [= <- <-]. done.
Qed.

End PaginateFacts.

(** ** Runs of the further properties *)

Lemma stack_uneven_rows_raise_witness :
  stack [nl "+ +"; nl "+ + +"] "." = Raise ValueError.
Proof.
  apply (stack_uneven_rows_raise [nl "+ +"; nl "+ + +"] "." 0 0 1
           (nl "+ +") (nl "+ + +") "+ +" "+ + +");
    try reflexivity.
  - repeat constructor.
  - vm_compute. lia.
Defined.


Lemma to_symbols_cell_witness :
  to_symbols (char_str ".") (char_str "*") [[false; true]] !! 0%nat
    ≫= (fun row : list string => row !! 1%nat)
  = Some (char_str (if Ascii.eqb "." "1" then "1"%char
                    else if true then "*"%char else "."%char)).
Proof.
  apply (to_symbols_cell "." "*" [[false; true]] 0 1 true). reflexivity.
Defined.

Lemma render_bbox_one_shot_witness :
  fst (render coordinate_bounds rasterize_vertices (VGen 0) 2 "." "+" false
         (Some (0, 0, 2, 2)%Q) one_iterator_heap)
    = fst (render coordinate_bounds rasterize_vertices (VList [corner_points]) 2 "." "+"
             false (Some (0, 0, 2, 2)%Q) one_iterator_heap)
  /\ fst (render coordinate_bounds rasterize_vertices (VIter 0) 2 "." "+" false
         (Some (0, 0, 2, 2)%Q) one_iterator_heap)
    = fst (render coordinate_bounds rasterize_vertices (VList [corner_points]) 2 "." "+"
             false (Some (0, 0, 2, 2)%Q) one_iterator_heap).
Proof.
  apply (render_bbox_one_shot coordinate_bounds rasterize_vertices 0 [corner_points]).
  reflexivity.
Defined.

Lemma render_call_iterator_starved_witness :
  rc_shapes (RasterizeCall [] (2, 2)%Z
               (FromGdal 0 ((2 - 0) / inject_Z 2) 0 2 0 (- ((2 - 0) / inject_Z 2)))
               false) = [].
Proof.
  apply (render_call_iterator_starved coordinate_bounds 0 2 "." "+" false
           one_iterator_heap _ (Heap [Items []] [])).
  vm_compute. reflexivity.
Defined.

Lemma render_zero_width_raises_witness :
  render coordinate_bounds rasterize_vertices corner_points 40 " " "+" false
         (Some (1, 0, 1, 5)%Q) empty_heap = (Raise ZeroDivisionError, empty_heap).
Proof.
  apply (render_zero_width_raises coordinate_bounds rasterize_vertices);
    [reflexivity | reflexivity | lia].
Defined.


Lemma stack_single_layer_is_rerender_witness :
  render coordinate_bounds rasterize_vertices corner_points 2 (char_str ".") "+" false
         None empty_heap
  = (stack [nl "+  " +:+ nl "   "] (char_str "."), empty_heap).
Proof.
  apply (stack_single_layer_is_rerender coordinate_bounds rasterize_vertices
           rasterize_vertices_out_shape corner_points 2 "." false None empty_heap);
    [reflexivity | discriminate | vm_compute; reflexivity].
Defined.

Lemma extractor_stops_at_bad_element_witness :
  fst (for_geometries Ok (VIter 0)
         (Heap [Items [point 1 2; VDict ∅; point 3 4]] [])) = Raise KeyError
  /\ pending_items 0
       (snd (for_geometries Ok (VIter 0)
               (Heap [Items [point 1 2; VDict ∅; point 3 4]] []))) = [point 3 4].
Proof.
  apply (extractor_stops_at_bad_element 0 _ [point 1 2] (VDict ∅) [point 3 4] KeyError).
  - reflexivity.
  - constructor; [|constructor]. by exists (point 1 2).
  - reflexivity.
Defined.

Lemma dict2table_layout_witness :
  let prop_width := max_list (map (fun kv => String.length (fst kv)) sample_attributes) in
  let value_width :=
    max_list (map (fun kv => String.length (text_of (snd kv))) sample_attributes) in
  let divider :=
    "+" +:+ repeat_char "-" (prop_width + 2) +:+ "+"
        +:+ repeat_char "-" (value_width + 2) +:+ "+" in
  let row := fun kv : string * value =>
    "| " +:+ fst kv +:+ repeat_char " " (prop_width - String.length (fst kv))
         +:+ " | "
         +:+ repeat_char " " (value_width - String.length (text_of (snd kv)))
         +:+ text_of (snd kv) +:+ " |" in
  let lines := [divider] ++ map row sample_attributes ++ [divider] in
  dict2table text_of sample_attributes = Ok (join linesep lines)
  /\ length lines = (length sample_attributes + 2)%nat
  /\ Forall (fun line => String.length line = (prop_width + value_width + 7)%nat) lines
  /\ (Forall (fun kv => no_linebreak (fst kv) /\ no_linebreak (text_of (snd kv)))
             sample_attributes ->
      splitlines (join linesep lines) = lines).
Proof.
  apply (dict2table_layout text_of sample_attributes).
  - discriminate.
  - refine (bool_decide_unpack _ _). vm_compute. reflexivity.
Defined.

Lemma paginate_without_properties_witness :
  paginate text_of coordinate_bounds rasterize_vertices (VList [sample_feature]) None
           small_options empty_heap
  = (Some (map (fun r => r +:+ linesep) [nl "+ ." +:+ nl ". ."], None), empty_heap).
Proof.
  apply (paginate_without_properties text_of coordinate_bounds rasterize_vertices
           small_options [sample_feature]
           [nl "+ ." +:+ nl ". ."] empty_heap).
  - repeat constructor.
  - constructor; [vm_compute; reflexivity|constructor].
Defined.

Lemma paginate_stops_at_first_failure_witness :
  paginate text_of coordinate_bounds rasterize_vertices
           (VList ([sample_feature] ++ VDict ∅ :: [sample_feature])) None
           small_options empty_heap
  = (Some ([nl (nl "+ ." +:+ nl ". .")], Some KeyError), empty_heap).
Proof.
  apply (paginate_stops_at_first_failure text_of coordinate_bounds rasterize_vertices
           None small_options [sample_feature]
           [nl (nl "+ ." +:+ nl ". .")] (VDict ∅) KeyError [sample_feature] empty_heap).
  - repeat constructor.
  - exact I.
  - constructor; [vm_compute; reflexivity|constructor].
  - vm_compute. reflexivity.
Defined.

Lemma page_missing_property_witness :
  page text_of coordinate_bounds rasterize_vertices (Some ["a"; "zz"])
       default_options sample_feature empty_heap = (Raise KeyError, empty_heap).
Proof.
  apply (page_missing_property text_of coordinate_bounds rasterize_vertices ["a"; "zz"]
           default_options sample_feature {[ "a" := VStr "x"; "bb" := VNone ]} "zz").
  - vm_compute. reflexivity.
  - refine (bool_decide_unpack _ _). vm_compute. reflexivity.
  - vm_compute. reflexivity.
Defined.

Lemma paginate_single_mapping_witness :
  paginate text_of coordinate_bounds rasterize_vertices
           (VDict {[ "type" := VStr "Feature"; "geometry" := corner_points ]})
           (Some ["a"]) default_options empty_heap
  = (Some ([], Some TypeError), empty_heap).
Proof.
  apply (paginate_single_mapping text_of coordinate_bounds rasterize_vertices).
  intros H. apply (f_equal (fun m : gmap string value => m !! "type")) in H.
  vm_compute in H. discriminate.
Defined.

Lemma paginate_one_shot_as_list_witness :
  let r := fst (paginate text_of coordinate_bounds rasterize_vertices
                  (VList (pending_items 0 three_item_heap)) None small_options
                  three_item_heap) in
  let run := paginate text_of coordinate_bounds rasterize_vertices (VIter 0) None
               small_options three_item_heap in
  paginate text_of coordinate_bounds rasterize_vertices (VGen 0) None small_options
           three_item_heap = run
  /\ fst run = r
  /\ forall pages err, r = Some (pages, err) ->
       pending_items 0 (snd run)
       = drop (length pages + match err with Some _ => 1 | None => 0 end)
              (pending_items 0 three_item_heap).
Proof.
  apply (paginate_one_shot_as_list text_of coordinate_bounds rasterize_vertices None
           small_options 0 three_item_heap).
  repeat constructor.
Defined.

(** ** Stacking a stacked picture *)

Lemma splitlines_clean (s : string) : Forall no_linebreak (splitlines s).
Proof.
  induction s as [|c rest IH]; [constructor|]. cbn [splitlines].
  destruct (is_linebreak c) eqn:Hc.
  - destruct rest as [|c' rest']; [by repeat constructor|].
    destruct (Ascii.eqb c CR && Ascii.eqb c' LF) eqn:Hcrlf.
    + constructor; [constructor|].
      apply andb_true_iff in Hcrlf as [_ Hlf]. apply Ascii.eqb_eq in Hlf as ->.
      cbn [splitlines] in IH. change (is_linebreak LF) with true in IH.
      assert (Htl : Forall no_linebreak ("" :: splitlines rest')) by (by destruct rest').
      by apply Forall_cons in Htl as [_ Htl].
    + constructor; [constructor|done].
  - destruct (splitlines (rest)) as [|line lines].
    + constructor; [|constructor]. unfold no_linebreak. cbn. by repeat constructor.
    + apply Forall_cons in IH as [Hline Hlines]. constructor; [|done].
      unfold no_linebreak in *. cbn. by constructor.
Qed.

Lemma mapM_option_app {A B} (f : A -> option B) (l1 l2 : list A) :
  mapM f (l1 ++ l2) = a ← mapM f l1; b ← mapM f l2; Some (a ++ b).
Proof.
  induction l1 as [|x l1 IH]; cbn.
  - by destruct (mapM f l2).
  - destruct (f x) as [y|]; [|done]. cbn. rewrite IH.
    destruct (mapM f l1) as [a|]; [|done]. cbn. by destruct (mapM f l2).
Qed.

Lemma composite_pixel_char (pixel_stack : list ascii) :
  composite_pixel " " pixel_stack = char_str (composite_char pixel_stack).
Proof.
  unfold composite_pixel, composite_char. by destruct (last _).
Qed.

Lemma composite_pixel_flatten fill (lower upper : list ascii) :
  composite_pixel fill (composite_char lower :: upper)
  = composite_pixel fill (lower ++ upper).
Proof.
  unfold composite_pixel, composite_char. rewrite filter_app.
  destruct (last (filter (fun _p => _p <> SPACE) lower)) as [p|] eqn:Hlast; cbn [default].
  - assert (Hp : p <> SPACE).
    { apply last_Some_elem_of, list_elem_of_filter in Hlast. tauto. }
    rewrite filter_cons_True by done. rewrite last_cons, last_app, Hlast. done.
  - apply last_None in Hlast. rewrite Hlast.
    rewrite filter_cons_False by (intros H; by apply H). done.
Qed.

Lemma every_other_length {A} (l : list A) :
  length (every_other l) = ((length l + 1) / 2)%nat.
Proof.
  induction l as [l IH] using (induction_ltof1 _ (@length A)). unfold ltof in IH.
  destruct l as [|x [|y l]]; [done|done|].
  cbn [every_other length]. rewrite IH by (cbn; lia).
  replace (S (S (length l)) + 1)%nat with (length l + 1 + 1 * 2)%nat by lia.
  rewrite Nat.div_add by done. lia.
Qed.

Lemma zip_star_Forall {A} (P : A -> Prop) (rows : list (list A)) :
  Forall (Forall P) rows -> Forall (Forall P) (zip_star rows).
Proof.
  intros Hrows. destruct rows as [|r0 rows0] eqn:Hr; [constructor|]. rewrite <- Hr in *.
  apply Forall_lookup. intros i tuple Hi.
  rewrite zip_star_lookup in Hi by (by subst). apply mapM_Some in Hi.
  apply Forall_lookup. intros k y Hy.
  destruct (Forall2_lookup_r _ _ _ _ _ Hi Hy) as (r & Hrk & Hry). cbn beta in Hry.
  rewrite Forall_lookup in Hrows. specialize (Hrows _ _ Hrk).
  rewrite Forall_lookup in Hrows. by eapply Hrows.
Qed.

Lemma every_other_Forall {A} (P : A -> Prop) (l : list A) :
  Forall P l -> Forall P (every_other l).
Proof.
  intros Hl. apply Forall_lookup. intros j x Hx. rewrite every_other_lookup in Hx.
  rewrite Forall_lookup in Hl. by eapply Hl.
Qed.

Lemma spaced_line_clean (row : list ascii) :
  Forall (fun c => is_linebreak c = false) row ->
  no_linebreak (join " " (map char_str row)).
Proof.
  unfold no_linebreak. induction 1 as [|c row Hc Hrow IH]; [constructor|].
  destruct row as [|c' row].
  - cbn. by repeat constructor.
  - cbn [map] in *. rewrite join_cons.
    change (char_str c +:+ " " +:+ join " " (char_str c' :: map char_str row))
      with (String c (String " " (join " " (char_str c' :: map char_str row)))).
    cbn [list_ascii_of_string]. constructor; [done|]. by constructor.
Qed.

Lemma composite_char_clean (pixel_stack : list ascii) :
  Forall (fun c => is_linebreak c = false) pixel_stack ->
  is_linebreak (composite_char pixel_stack) = false.
Proof.
  intros Hps. unfold composite_char.
  destruct (last _) as [p|] eqn:Hlast; [|done]. cbn.
  apply last_Some_elem_of, list_elem_of_filter in Hlast as [_ Hin].
  rewrite Forall_forall in Hps. by apply Hps.
Qed.

Local Abbreviation pix := (fun r : string => every_other (list_ascii_of_string r)).
Local Abbreviation o_row fill rs :=
  (map (composite_pixel fill) (zip_star (map pix rs))).

Lemma blank_row_chars (a : list string) :
  join " " (o_row " " a)
  = join " " (map char_str (map composite_char (zip_star (map pix a)))).
Proof.
  f_equal. rewrite map_map. apply map_ext. intros ps.
  apply composite_pixel_char.
Qed.

Lemma blank_row_clean (a : list string) :
  Forall no_linebreak a -> no_linebreak (join " " (o_row " " a)).
Proof.
  intros Ha. rewrite blank_row_chars. apply spaced_line_clean.
  apply Forall_fmap, Forall_forall. intros ps Hps. cbn beta.
  apply composite_char_clean.
  assert (Hall : Forall (Forall (fun c => is_linebreak c = false)) (zip_star (map pix a))).
  { apply zip_star_Forall, Forall_fmap. eapply Forall_impl; [exact Ha|].
    intros r Hr. by apply every_other_Forall. }
  rewrite Forall_forall in Hall. by apply Hall.
Qed.

Lemma blank_row_length (a : list string) len :
  a <> [] -> Forall (fun r => String.length r = len) a -> Nat.odd len = true ->
  String.length (join " " (o_row " " a)) = len.
Proof.
  intros Hne Ha Hodd. rewrite blank_row_chars, spaced_line_length, !length_map.
  rewrite (zip_star_length _ ((len + 1) / 2)).
  - apply Nat.odd_spec in Hodd as [m ->].
    replace (2 * m + 1 + 1)%nat with ((m + 1) * 2)%nat by lia.
    rewrite Nat.div_mul by done. lia.
  - by destruct a.
  - apply Forall_fmap. eapply Forall_impl; [exact Ha|]. intros r Hr.
    unfold compose. by rewrite every_other_length, length_list_ascii, Hr.
Qed.

Lemma o_row_flatten fill (a b : list string) :
  a <> [] -> o_row fill (join " " (o_row " " a) :: b) = o_row fill (a ++ b).
Proof.
  intros Hne. cbn [map]. rewrite blank_row_chars, every_other_spaced.
  rewrite map_app. apply list_eq. intros j.
  rewrite !list_lookup_fmap, !zip_star_lookup by (by destruct a).
  rewrite mapM_option_app.
  change (mapM (fun r : list ascii => r !! j)
            (map composite_char (zip_star (map pix a)) :: map pix b))
    with (y ← map composite_char (zip_star (map pix a)) !! j;
          k ← mapM (fun r : list ascii => r !! j) (map pix b); mret (y :: k)).
  rewrite list_lookup_fmap, zip_star_lookup by (by destruct a).
  destruct (mapM (fun r : list ascii => r !! j) (map pix a)) as [pa|]; [|done].
  destruct (mapM (fun r : list ascii => r !! j) (map pix b)) as [pb|]; [|done].
  cbn. f_equal. apply composite_pixel_flatten.
Qed.


Lemma aligned_rows_uniform (layers : list string) (shape : list nat) :
  layers <> [] -> Forall (fun layer => layer_shape layer = shape) layers ->
  length (zip_star (map splitlines layers)) = length shape
  /\ forall i rs, zip_star (map splitlines layers) !! i = Some rs ->
       rs <> [] /\ exists len, shape !! i = Some len
                               /\ Forall (fun r => String.length r = len) rs.
Proof.
  intros Hne Hshape.
  assert (Hlen : length (zip_star (map splitlines layers)) = length shape).
  { apply zip_star_length; [by destruct layers|].
    apply Forall_fmap. eapply Forall_impl; [exact Hshape|].
    intros layer <-. unfold layer_shape, compose. by rewrite length_map. }
  split; [done|]. intros i rs Hrs.
  pose proof (lookup_lt_Some _ _ _ Hrs) as Hi. rewrite Hlen in Hi.
  destruct (lookup_lt_is_Some_2 shape i Hi) as [len Hl].
  destruct (aligned_rows layers shape i len Hne Hshape Hl) as (rs' & Hrs' & Hal & Hall).
  assert (rs' = rs) as -> by congruence.
  split; [|by exists len].
  intros ->. apply Forall2_length in Hal. by destruct layers.
Qed.

(** X3.  Stacking is associative over pictures of one shape: for layers whose
    lines all have the same, odd, lengths (as rendered layers have), stacking
    the lower layers with the blank fill and then stacking the result under
    the upper layers gives what stacking all layers at once gives. *)
Theorem stack_of_stacked (lower upper : list string) (fill : ascii) (shape : list nat) :
  lower <> [] -> shape <> [] ->
  Forall (fun layer => layer_shape layer = shape) (lower ++ upper) ->
  Forall (fun len => Nat.odd len = true) shape ->
  exists mid,
    stack lower " " = Ok mid
    /\ stack (mid :: upper) (char_str fill) = stack (lower ++ upper) (char_str fill).
Proof.
  intros Hne Hshne Hshape Hodd.
  pose proof Hshape as Hboth. apply Forall_app in Hshape as [Hlow Hup].
  destruct (aligned_rows_uniform lower shape Hne Hlow) as [Hlen_low Hrows_low].
  destruct (aligned_rows_uniform (lower ++ upper) shape ltac:(by destruct lower) Hboth)
    as [Hlen_all Hrows_all].
  set (L := map splitlines lower) in *. set (U := map splitlines upper).
  rewrite map_app in Hlen_all, Hrows_all. fold L U in Hlen_all, Hrows_all.
  set (midlines := map (fun rs => join " " (o_row " " rs)) (zip_star L)).
  exists (join linesep midlines +:+ linesep).
  assert (Hmid : stack lower " " = Ok (join linesep midlines +:+ linesep)).
  { unfold stack. cbn [String.length Nat.eqb negb]. fold L.
    rewrite stack_rows_uniform; [done|].
    apply Forall_lookup. intros i rs Hrs.
    destruct (Hrows_low i rs Hrs) as [Hrs_ne (len & _ & Hall)]. eauto. }
  split; [done|].
  assert (Hsplit : splitlines (join linesep midlines +:+ linesep) = midlines).
  { apply splitlines_join.
    - unfold midlines. intros Hnil. apply (f_equal length) in Hnil.
      rewrite length_map, Hlen_low in Hnil. by destruct shape.
    - unfold midlines. apply Forall_fmap, Forall_forall. intros rs Hrs.
      apply blank_row_clean.
      assert (Hall : Forall (Forall no_linebreak) (zip_star L)).
      { apply zip_star_Forall, Forall_fmap, Forall_forall. intros layer _.
        apply splitlines_clean. }
      rewrite Forall_forall in Hall. by apply Hall. }
  unfold stack. cbn [String.length char_str Nat.eqb negb map].
  rewrite Hsplit, map_app. fold L U.
  assert (Hlook1 : forall i, zip_star (midlines :: U) !! i
            = a ← mapM (fun r : list string => r !! i) L;
              b ← mapM (fun r : list string => r !! i) U;
              Some (join " " (o_row " " a) :: b)).
  { intros i. rewrite zip_star_lookup by done.
    change (mapM (fun r : list string => r !! i) (midlines :: U))
      with (y ← midlines !! i; k ← mapM (fun r : list string => r !! i) U; mret (y :: k)).
    unfold midlines. rewrite list_lookup_fmap, zip_star_lookup by (by destruct lower).
    by destruct (mapM (fun r : list string => r !! i) L). }
  assert (Hlook2 : forall i, zip_star (L ++ U) !! i
            = a ← mapM (fun r : list string => r !! i) L;
              b ← mapM (fun r : list string => r !! i) U;
              Some (a ++ b)).
  { intros i. rewrite zip_star_lookup by (by destruct lower).
    apply mapM_option_app. }
  assert (Hparts : forall i a b,
            mapM (fun r : list string => r !! i) L = Some a ->
            mapM (fun r : list string => r !! i) U = Some b ->
            a <> [] /\ exists len, Nat.odd len = true
                                   /\ Forall (fun r => String.length r = len) (a ++ b)).
  { intros i a b Ha Hb.
    assert (Hrow : zip_star (L ++ U) !! i = Some (a ++ b)) by (by rewrite Hlook2, Ha, Hb).
    destruct (Hrows_all _ _ Hrow) as [_ (len & Hl & Hall)].
    split.
    - intros ->. apply length_mapM in Ha. by destruct lower.
    - exists len. split; [|done].
      rewrite Forall_lookup in Hodd. by eapply Hodd. }
  rewrite !stack_rows_uniform.
  - cbn [mbind result_bind rbind]. do 3 f_equal. apply list_eq. intros i.
    rewrite (list_lookup_fmap _ (zip_star (midlines :: U))).
    rewrite (list_lookup_fmap _ (zip_star (L ++ U))).
    rewrite Hlook1, Hlook2.
    destruct (mapM (fun r : list string => r !! i) L) as [a|] eqn:Ha; [|done].
    destruct (mapM (fun r : list string => r !! i) U) as [b|] eqn:Hb; [|done].
    cbn. do 2 f_equal. apply o_row_flatten. by destruct (Hparts i a b Ha Hb).
  - apply Forall_lookup. intros i rs Hrs.
    destruct (Hrows_all i rs Hrs) as [Hrs_ne (len & _ & Hall)]. eauto.
  - apply Forall_lookup. intros i rs Hrs. rewrite Hlook1 in Hrs.
    destruct (mapM (fun r : list string => r !! i) L) as [a|] eqn:Ha; [|done].
    destruct (mapM (fun r : list string => r !! i) U) as [b|] eqn:Hb; [|done].
    cbn in Hrs. injection Hrs as <-.
    destruct (Hparts i a b Ha Hb) as [Ha_ne (len & Hlen_odd & Hall)].
    split; [done|]. exists len.
    apply Forall_app in Hall as [Hall_a Hall_b].
    constructor; [|done]. by apply blank_row_length.
Qed.

Lemma stack_of_stacked_witness :
  exists mid,
    stack [star_layer; plus_layer] " " = Ok mid
    /\ stack (mid :: [plus_layer]) (char_str ".")
       = stack ([star_layer; plus_layer] ++ [plus_layer]) (char_str ".").
Proof.
  apply (stack_of_stacked [star_layer; plus_layer] [plus_layer] "." [9; 9; 9]%nat).
  - discriminate.
  - discriminate.
  - repeat (constructor; [reflexivity|]). constructor.
  - repeat constructor.
Defined.
